(** * svox: the host binding of the sparse-voxel-octree kernels

    A shallow embedding of [svox/csrc/svox.cpp].  The file validates the
    tensors it is handed and forwards them to four device kernels that are
    only declared there.  The embedding keeps that split:

    - [Tensor], [State] and the monad [M] model the tensor handles, the
      device memory they point into and C++ exceptions;
    - section [Binding] is the code of the four wrappers, over an arbitrary
      implementation [K] of the declared kernels;
    - module [Spec] is an implementation of the kernels written from the
      design document, in exact rational arithmetic;
    - module [Scene] is a small grid on which the statements are tried. *)

From Stdlib Require Import ZArith QArith Qround String List Lia Lqa.
From stdpp Require Import base option list gmap strings.

(** ** Tensors as the binding sees them *)

Inductive Device := CPU | CUDA (index : nat).

Inductive ScalarType :=
  Byte | Char | Short | Int | Long | Half | Float | Double | Bool | BFloat16.

(** Contents of a storage: floating tensors hold rationals, integer tensors
    hold integers. *)
Inductive Buffer := FloatBuf (xs : list Q) | IntBuf (xs : list Z).

(** A [torch::Tensor] is a handle: metadata plus the address of its storage.
    Passing it by value, as every function of the file does, shares the
    storage. *)
Record Tensor := mkTensor {
  device : Device;
  contiguous : bool;
  sizes : list Z;
  scalar_type : ScalarType;
  storage : positive
}.

(** A tensor returned by a kernel: it is freshly allocated, so it is
    represented by its shape and contents. *)
Record Fresh := mkFresh { f_sizes : list Z; f_data : Buffer }.

Definition is_cuda (x : Tensor) : bool :=
  match device x with CUDA _ => true | CPU => false end.

Definition is_contiguous (x : Tensor) : bool := contiguous x.

Definition dim (x : Tensor) : Z := Z.of_nat (length (sizes x)).

Definition is_floating_point (x : Tensor) : bool :=
  match scalar_type x with
  | Half | Float | Double | BFloat16 => true
  | _ => false
  end.

Definition device_of (x : Tensor) : option Device := Some (device x).

(** ** Device state, kernel launches and exceptions *)

Inductive Launch :=
  | LQuery (data child indices offset invradius : Tensor)
  | LQueryBackward (child indices grad_output offset invradius : Tensor)
  | LAssign (data child indices values offset invradius : Tensor)
  | LRender (data child origins dirs vdirs offset invradius : Tensor)
            (step_size stop_thresh background_brightness : Q).

Record State := mkState {
  heap : gmap positive Buffer;
  current_device : nat;
  launches : list (nat * Launch)
}.

Inductive Result (A : Type) := Ok (a : A) | Raise (msg : string).
Arguments Ok {A} a.
Arguments Raise {A} msg.

(** State and exceptions: what was written before a throw stays written. *)
Definition M (A : Type) : Type := State -> Result A * State.

#[global] Instance M_ret : MRet M := fun A a s => (Ok a, s).
#[global] Instance M_bind : MBind M := fun A B f m s =>
  match m s with
  | (Ok a, s') => f a s'
  | (Raise msg, s') => (Raise msg, s')
  end.

Definition set_device (i : nat) (s : State) : State :=
  mkState (heap s) i (launches s).

(** A device kernel runs on the current device and reaches memory only
    through the tensors it is handed: it maps the storages of its arguments
    to a result and their new contents. *)
Definition Kernel (A : Type) : Type :=
  nat -> gmap positive Buffer -> Result A * gmap positive Buffer.

Definition reach (args : list Tensor) (h : gmap positive Buffer)
  : gmap positive Buffer :=
  filter (fun kv => kv.1 ∈ storage <$> args) h.

Definition launch {A} (call : Launch) (args : list Tensor) (k : Kernel A)
  : M A := fun s =>
  let '(r, h') := k (current_device s) (reach args (heap s)) in
  (r, mkState (reach args h' ∪ heap s) (current_device s)
              (launches s ++ [(current_device s, call)])).

(** [TORCH_CHECK(cond, msg)] *)
Definition TORCH_CHECK (cond : bool) (msg : string) : M unit := fun s =>
  if cond then (Ok tt, s) else (Raise msg, s).

(** [x.size(d)], with the library's wrapping of negative dimensions; a
    tensor without dimensions has no size to return. *)
Definition size (x : Tensor) (d : Z) : M Z := fun s =>
  let n := dim x in
  if (n =? 0)%Z || (d <? - n)%Z || (n <=? d)%Z
  then (Raise "IndexError: dimension out of range", s)
  else (Ok (nth (Z.to_nat (if (d <? 0)%Z then d + n else d)) (sizes x) 0%Z), s).

(** [at::cuda::OptionalCUDAGuard g(d)]: the current device is [d] until the
    end of the scope, also when the scope is left by an exception. *)
Definition OptionalCUDAGuard {A} (d : option Device) (body : M A) : M A :=
  fun s =>
  match d with
  | None => body s
  | Some CPU => (Raise "OptionalCUDAGuard: expected a CUDA device", s)
  | Some (CUDA i) =>
      let '(r, s') := body (set_device i s) in
      (r, set_device (current_device s) s')
  end.

(** ** The binding *)

Definition CHECK_CUDA (name : string) (x : Tensor) : M unit :=
  TORCH_CHECK (is_cuda x) (name +:+ " must be a CUDA tensor").

Definition CHECK_CONTIGUOUS (name : string) (x : Tensor) : M unit :=
  TORCH_CHECK (is_contiguous x) (name +:+ " must be contiguous").

Definition CHECK_INPUT (name : string) (x : Tensor) : M unit :=
  CHECK_CUDA name x ;; CHECK_CONTIGUOUS name x.

(** The kernels declared at the top of the file and defined elsewhere. *)
Record Kernels := mkKernels {
  _query_vertical_cuda :
    Tensor -> Tensor -> Tensor -> Tensor -> Tensor -> Kernel Fresh;
  _query_vertical_backward_cuda :
    Tensor -> Tensor -> Tensor -> Tensor -> Tensor -> Kernel Fresh;
  _assign_vertical_cuda :
    Tensor -> Tensor -> Tensor -> Tensor -> Tensor -> Tensor -> Kernel unit;
  _volume_render_cuda :
    Tensor -> Tensor -> Tensor -> Tensor -> Tensor -> Tensor -> Tensor ->
    Q -> Q -> Q -> Kernel Fresh
}.

Section Binding.
Variable K : Kernels.

Definition query_vertical (data child indices offset invradius : Tensor)
  : M Fresh :=
  CHECK_INPUT "data" data ;;
  CHECK_INPUT "child" child ;;
  CHECK_INPUT "indices" indices ;;
  CHECK_INPUT "offset" offset ;;
  CHECK_INPUT "invradius" invradius ;;
  TORCH_CHECK (dim indices =? 2)%Z "indices.dim() == 2" ;;
  TORCH_CHECK (is_floating_point indices) "indices.is_floating_point()" ;;
  OptionalCUDAGuard (device_of data)
    (launch (LQuery data child indices offset invradius)
       [data; child; indices; offset; invradius]
       (_query_vertical_cuda K data child indices offset invradius)).

Definition query_vertical_backward
    (child indices grad_output offset invradius : Tensor) : M Fresh :=
  CHECK_INPUT "child" child ;;
  CHECK_INPUT "grad_output" grad_output ;;
  CHECK_INPUT "indices" indices ;;
  CHECK_INPUT "offset" offset ;;
  CHECK_INPUT "invradius" invradius ;;
  TORCH_CHECK (dim indices =? 2)%Z "indices.dim() == 2" ;;
  TORCH_CHECK (is_floating_point indices) "indices.is_floating_point()" ;;
  OptionalCUDAGuard (device_of grad_output)
    (launch (LQueryBackward child indices grad_output offset invradius)
       [child; indices; grad_output; offset; invradius]
       (_query_vertical_backward_cuda K child indices grad_output offset
          invradius)).

Definition assign_vertical
    (data child indices values offset invradius : Tensor) : M unit :=
  CHECK_INPUT "data" data ;;
  CHECK_INPUT "child" child ;;
  CHECK_INPUT "indices" indices ;;
  CHECK_INPUT "values" values ;;
  CHECK_INPUT "offset" offset ;;
  CHECK_INPUT "invradius" invradius ;;
  TORCH_CHECK (dim indices =? 2)%Z "indices.dim() == 2" ;;
  TORCH_CHECK (dim values =? 2)%Z "values.dim() == 2" ;;
  TORCH_CHECK (is_floating_point indices) "indices.is_floating_point()" ;;
  TORCH_CHECK (is_floating_point values) "values.is_floating_point()" ;;
  OptionalCUDAGuard (device_of data)
    (launch (LAssign data child indices values offset invradius)
       [data; child; indices; values; offset; invradius]
       (_assign_vertical_cuda K data child indices values offset
          invradius)).

Definition volume_render
    (data child origins dirs vdirs offset invradius : Tensor)
    (step_size stop_thresh background_brightness : Q) : M Fresh :=
  CHECK_INPUT "data" data ;;
  CHECK_INPUT "child" child ;;
  CHECK_INPUT "origins" origins ;;
  CHECK_INPUT "dirs" dirs ;;
  CHECK_INPUT "vdirs" vdirs ;;
  CHECK_INPUT "offset" offset ;;
  CHECK_INPUT "invradius" invradius ;;
  k ← size data (-1) ;
  TORCH_CHECK (4 <=? k)%Z "data.size(-1) >= 4" ;;
  launch (LRender data child origins dirs vdirs offset invradius
            step_size stop_thresh background_brightness)
    [data; child; origins; dirs; vdirs; offset; invradius]
    (_volume_render_cuda K data child origins dirs vdirs offset invradius
       step_size stop_thresh background_brightness).
End Binding.


(** ** The Python module

    [PYBIND11_MODULE] registers the four functions under their own names,
    each with one [py::arg] per parameter and no default values.  A call
    from Python is resolved by pybind11: positional arguments first, the
    remaining parameters by keyword; a parameter left without a value, a
    keyword that names no remaining parameter, too many positional arguments
    or a value of the wrong type make the call a [TypeError] before the
    function is entered. *)

(** Python values that reach the module as arguments. *)
Inductive PyVal :=
  | PyTensor (t : Tensor)
  | PyFloat (q : Q)
  | PyInt (z : Z)
  | PyStr (s : string)
  | PyNone.

(** What a call hands back: a new tensor, or [None] for a [void] function. *)
Inductive PyOut := OutTensor (f : Fresh) | OutNone.

#[global] Instance M_fmap : FMap M := fun A B f m s =>
  match m s with
  | (Ok a, s') => (Ok (f a), s')
  | (Raise msg, s') => (Raise msg, s')
  end.

(** One [m.def]: the Python name, the doc string, the [py::arg] names and
    the C++ function behind them, applied to the converted arguments. *)
Record Export := mkExport {
  py_name : string;
  py_doc : option string;
  py_args : list string;
  py_impl : list PyVal -> option (M PyOut)
}.

(** The caster of [torch::Tensor] accepts tensor objects and nothing else. *)
Definition as_tensor (v : PyVal) : option Tensor :=
  match v with
  | PyTensor t => Some t
  | _ => None
  end.

Definition TypeError : string := "TypeError: incompatible function arguments".

(** pybind11's resolution of the arguments of a call against the [py::arg]
    names of a function without defaults. *)
Definition bind_args (names : list string) (pos : list PyVal)
    (kw : gmap string PyVal) : option (list PyVal) :=
  if decide (length names < length pos)%nat then None
  else
    match mapM (fun n => kw !! n) (drop (length pos) names) with
    | None => None
    | Some vals =>
        if decide (dom kw ⊆ list_to_set (drop (length pos) names))
        then Some (pos ++ vals)
        else None
    end.

Definition invoke (e : Export) (pos : list PyVal) (kw : gmap string PyVal)
  : M PyOut := fun s =>
  match bind_args (py_args e) pos kw ≫= py_impl e with
  | Some m => m s
  | None => (Raise TypeError, s)
  end.

Section PyModule.
Variable K : Kernels.
(** The caster of a C++ [float]; it belongs to pybind11. *)
Variable as_float : PyVal -> option Q.

Definition py_query_vertical (args : list PyVal) : option (M PyOut) :=
  match args with
  | [a1; a2; a3; a4; a5] =>
      data ← as_tensor a1; child ← as_tensor a2; indices ← as_tensor a3;
      offset ← as_tensor a4; invradius ← as_tensor a5;
      Some (OutTensor <$> query_vertical K data child indices offset invradius)
  | _ => None
  end.

Definition py_query_vertical_backward (args : list PyVal)
  : option (M PyOut) :=
  match args with
  | [a1; a2; a3; a4; a5] =>
      child ← as_tensor a1; indices ← as_tensor a2;
      grad_output ← as_tensor a3; offset ← as_tensor a4;
      invradius ← as_tensor a5;
      Some (OutTensor <$> query_vertical_backward K child indices grad_output
                            offset invradius)
  | _ => None
  end.

Definition py_assign_vertical (args : list PyVal) : option (M PyOut) :=
  match args with
  | [a1; a2; a3; a4; a5; a6] =>
      data ← as_tensor a1; child ← as_tensor a2; indices ← as_tensor a3;
      values ← as_tensor a4; offset ← as_tensor a5; invradius ← as_tensor a6;
      Some ((fun _ => OutNone) <$> assign_vertical K data child indices values
                                     offset invradius)
  | _ => None
  end.

Definition py_volume_render (args : list PyVal) : option (M PyOut) :=
  match args with
  | [a1; a2; a3; a4; a5; a6; a7; a8; a9; a10] =>
      data ← as_tensor a1; child ← as_tensor a2; origins ← as_tensor a3;
      dirs ← as_tensor a4; vdirs ← as_tensor a5; offset ← as_tensor a6;
      invradius ← as_tensor a7; step_size ← as_float a8;
      stop_thresh ← as_float a9; background_brightness ← as_float a10;
      Some (OutTensor <$> volume_render K data child origins dirs vdirs offset
                            invradius step_size stop_thresh
                            background_brightness)
  | _ => None
  end.

(** [PYBIND11_MODULE(TORCH_EXTENSION_NAME, m)] *)
Definition svox_module : list Export :=
  [ mkExport "query_vertical" (Some "Query tree at coords [0, 1)")
      ["data"; "child"; "indices"; "offset"; "invradius"]
      py_query_vertical;
    mkExport "query_vertical_backward"
      (Some "Backwards pass for query_vertical")
      ["child"; "indices"; "grad_output"; "offset"; "invradius"]
      py_query_vertical_backward;
    mkExport "assign_vertical" (Some "Assign tree at given coords [0, 1)")
      ["data"; "child"; "indices"; "values"; "offset"; "invradius"]
      py_assign_vertical;
    mkExport "volume_render" None
      ["data"; "child"; "origins"; "dirs"; "vdirs"; "offset"; "invradius";
       "step_size"; "stop_thresh"; "background_brightness"]
      py_volume_render ].

(** [m.<name>]: the function registered under a name, if any. *)
Definition getattr (name : string) : option Export :=
  find (fun e => bool_decide (py_name e = name)) svox_module.
End PyModule.

(** ** The kernels, from the design document

    The device kernels ([_query_vertical_cuda] and its three siblings) are
    declared in [svox.cpp] and defined in a CUDA file that is not part of the
    sources.  Module [Spec] writes them out after the design document, over
    rationals: the descent and the interpolation follow section 4.2 to the
    letter, the shapes follow section 6. *)

Module Spec.
Local Open Scope Q_scope.

Definition vec3 : Type := Q * Q * Q.
Definition ivec3 : Type := Z * Z * Z.

Inductive Axis := Ax | Ay | Az.

Definition coord (a : Axis) (v : vec3) : Q :=
  match a, v with
  | Ax, (x, _, _) => x
  | Ay, (_, y, _) => y
  | Az, (_, _, z) => z
  end.

Definition each_axis (f : Axis -> Q) : vec3 := (f Ax, f Ay, f Az).

(** Two points with equal coordinates, whatever fractions denote them. *)
Definition veq (a b : vec3) : Prop := forall x, coord x a == coord x b.

(** A point of the unit cube [[0, 1)] on each axis. *)
Definition inside (r : vec3) : Prop :=
  forall x, 0 <= coord x r /\ coord x r < 1.

(** Modelled from the spec: the coordinate mapper of section 4.1, which the
    missing kernels apply to every point, [g = (x + offset) * invradius]. *)
Definition map_coord (offset invradius x : vec3) : vec3 :=
  each_axis (fun a => (coord a x + coord a offset) * coord a invradius).

(** Modelled from the spec: the linear part of the mapper, for the direction
    of a ray (missing kernel [_volume_render_cuda]). *)
Definition map_dir (invradius d : vec3) : vec3 :=
  each_axis (fun a => coord a d * coord a invradius).

Definition zlookup {A} (l : list A) (i : Z) : option A :=
  if (i <? 0)%Z then None else l !! Z.to_nat i.

Definition zinsert {A} (i : Z) (x : A) (l : list A) : list A :=
  if (i <? 0)%Z then l else <[Z.to_nat i := x]> l.

Definition zrange (n : Z) : list Z := Z.of_nat <$> seq 0%nat (Z.to_nat n).

(** Modelled from the spec: clipping of a cell coordinate to [[0, N-1]]
    (traversal of section 4.2, missing kernels). *)
Definition clip (N i : Z) : Z := Z.max 0 (Z.min (N - 1) i).

(** Modelled from the spec: [floor(g * N)] clipped to [[0, N-1]], the cell
    of a tile that a coordinate falls in (missing kernels). *)
Definition cell (N : Z) (g : Q) : Z := clip N (Qfloor (g * inject_Z N)).

(** Modelled from the spec: the cell of a point, axis by axis (traversal of
    section 4.2, missing kernels). *)
Definition cell3 (N : Z) (g : vec3) : ivec3 :=
  (cell N (coord Ax g), cell N (coord Ay g), cell N (coord Az g)).

(** Modelled from the spec: [g' = g * N - cell], the coordinate inside the
    child tile (missing kernels). *)
Definition remainder (N : Z) (g : Q) : Q :=
  g * inject_Z N - inject_Z (cell N g).

(** Modelled from the spec: the same renormalisation on the three axes
    (missing kernels). *)
Definition remainder3 (N : Z) (g : vec3) : vec3 :=
  each_axis (fun a => remainder N (coord a g)).

(** Modelled from the spec: the row-major position of a cell in [child]
    (shape [M,N,N,N]) and of one of its channels in [data] (shape
    [M,N,N,N,K]), the layout of section 6 that the missing kernels index. *)
Definition cell_index (N T : Z) (c : ivec3) : Z :=
  let '(i, j, k) := c in (((T * N + i) * N + j) * N + k)%Z.

Definition data_index (N K T : Z) (c : ivec3) (k : Z) : Z :=
  (cell_index N T c * K + k)%Z.

(** Modelled from the spec: a positive entry of [child] is the index of the
    child tile, anything else marks a leaf (data model, section 3). *)
Definition has_children (ch : Z) : bool := (0 <? ch)%Z.

(** Modelled from the spec: the descent of section 4.2 from tile [T] (missing
    kernels).  It returns the final tile and the coordinate inside it; it
    gives up on an entry outside [child] and when [fuel] tiles were visited
    without reaching a leaf. *)
Fixpoint descend (fuel : nat) (child : list Z) (N T : Z) (g : vec3)
  : option (Z * vec3) :=
  match fuel with
  | O => None
  | S fuel' =>
      match zlookup child (cell_index N T (cell3 N g)) with
      | None => None
      | Some ch =>
          if has_children ch
          then descend fuel' child N ch (remainder3 N g)
          else Some (T, g)
      end
  end.

(** Modelled from the spec: the invariant of the data model (section 3) in
    the form an arena without cycles has it (section 9): a child tile has an
    index below [M] and above the index of the tile that points to it. *)
Definition ordered (child : list Z) (M N : Z) : Prop :=
  forall (i : nat) (ch : Z),
    child !! i = Some ch -> has_children ch = true ->
    (Z.of_nat i / (N * N * N) < ch < M)%Z.

(** The point at offset [r], on each axis, within the leaf cell that [g]
    resolves to, in the coordinates of tile [T].  Offset 0 is the lower
    corner of the cell, the coordinate clamped to the cell; offset 1/2 is
    the centre of the cell.  The round trip of section 8 of the document is
    stated with it. *)
Fixpoint cell_point (r : Q) (fuel : nat) (child : list Z) (N T : Z)
    (g : vec3) : option vec3 :=
  match fuel with
  | O => None
  | S fuel' =>
      match zlookup child (cell_index N T (cell3 N g)) with
      | None => None
      | Some ch =>
          if has_children ch
          then
            match cell_point r fuel' child N ch (remainder3 N g) with
            | None => None
            | Some p =>
                Some (each_axis (fun a =>
                        (inject_Z (cell N (coord a g)) + coord a p)
                        / inject_Z N))
            end
          else
            Some (each_axis (fun a =>
                    (inject_Z (cell N (coord a g)) + r) / inject_Z N))
      end
  end.

Definition leaf_corner : nat -> list Z -> Z -> Z -> vec3 -> option vec3 :=
  cell_point 0.



(** Modelled from the spec: trilinear interpolation inside the final tile
    (section 4.2, missing kernel [_query_vertical_cuda]).  Along one axis
    [frac] is the fractional offset of the point within its cell,
    [corner_lo] is that cell and [corner_hi] the next one; corner indices
    are clamped to [[0, N-1]], never wrapped. *)
Definition frac (N : Z) (g : Q) : Q :=
  g * inject_Z N - inject_Z (Qfloor (g * inject_Z N)).

Definition corner_lo (N : Z) (g : Q) : Z := clip N (Qfloor (g * inject_Z N)).

Definition corner_hi (N : Z) (g : Q) : Z :=
  clip N (Qfloor (g * inject_Z N) + 1).

Definition axis_taps (N : Z) (g : Q) : list (Z * Q) :=
  [(corner_lo N g, 1 - frac N g); (corner_hi N g, frac N g)].

(** Modelled from the spec: the eight corners of a query and their trilinear
    weights (missing kernel [_query_vertical_cuda]). *)
Definition corners (N : Z) (g : vec3) : list (ivec3 * Q) :=
  '(i, wi) ← axis_taps N (coord Ax g);
  '(j, wj) ← axis_taps N (coord Ay g);
  '(k, wk) ← axis_taps N (coord Az g);
  [((i, j, k), wi * wj * wk)].

(** Modelled from the spec: the eight trilinear weights of a query (section
    4.2, missing kernel [_query_vertical_cuda]). *)
Definition weights (N : Z) (g : vec3) : list Q := snd <$> corners N g.

Definition Qsum (l : list Q) : Q := foldr Qplus 0 l.

Definition read (data : list Q) (i : Z) : Q := default 0 (zlookup data i).

(** Modelled from the spec: the blend of the corner feature vectors, one
    value per channel (missing kernel [_query_vertical_cuda]). *)
Definition interp (data : list Q) (N K T : Z) (g : vec3) : list Q :=
  (fun k =>
     Qsum ((fun cw : ivec3 * Q =>
              cw.2 * read data (data_index N K T cw.1 k)) <$> corners N g))
  <$> zrange K.

(** Modelled from the spec: the forward query of one point, already in grid
    coordinates (section 4.2, missing kernel [_query_vertical_cuda]). *)
Definition query_point (child : list Z) (data : list Q) (M N K : Z)
    (g : vec3) : option (list Q) :=
  match descend (Z.to_nat M) child N 0%Z g with
  | Some (T, gl) => Some (interp data N K T gl)
  | None => None
  end.

(** Modelled from the spec: the in-place overwrite of the feature vector of
    one cell (section 4.2, missing kernel [_assign_vertical_cuda]). *)
Definition write_cell (data : list Q) (N K T : Z) (c : ivec3) (v : list Q)
  : list Q :=
  foldr (fun kx d => zinsert (data_index N K T c kx.1) kx.2 d) data
        (zip (zrange K) v).

(** Modelled from the spec: assignment of one point: the value overwrites
    the feature vector of the nearest cell of the leaf tile, without
    interpolation (section 4.2, missing kernel [_assign_vertical_cuda]). *)
Definition assign_point (child : list Z) (data : list Q) (M N K : Z)
    (g : vec3) (v : list Q) : option (list Q) :=
  match descend (Z.to_nat M) child N 0%Z g with
  | Some (T, gl) => Some (write_cell data N K T (cell3 N gl) v)
  | None => None
  end.

(** Modelled from the spec: accumulation into one entry of the gradient
    buffer (section 4.2, missing kernel [_query_vertical_backward_cuda]). *)
Definition add_at (i : Z) (x : Q) (grad : list Q) : list Q :=
  zinsert i (read grad i + x) grad.

(** Modelled from the spec: the backward pass of one point: [weight *
    grad_output] is added to the gradient of each of the eight corners
    (section 4.2, missing kernel [_query_vertical_backward_cuda]). *)
Definition scatter_point (child : list Z) (grad : list Q) (M N K : Z)
    (g : vec3) (go : list Q) : option (list Q) :=
  match descend (Z.to_nat M) child N 0%Z g with
  | Some (T, gl) =>
      Some (foldr (fun cw acc =>
                     foldr (fun kx acc' =>
                              add_at (data_index N K T cw.1 kx.1)
                                     (cw.2 * kx.2) acc')
                           acc (zip (zrange K) go))
                  grad (corners N gl))
  | None => None
  end.

(** *** Buffers and shapes as the kernels read them *)

Definition float_at (h : gmap positive Buffer) (x : Tensor) : option (list Q) :=
  match h !! storage x with
  | Some (FloatBuf xs) => Some xs
  | _ => None
  end.

Definition int_at (h : gmap positive Buffer) (x : Tensor) : option (list Z) :=
  match h !! storage x with
  | Some (IntBuf xs) => Some xs
  | _ => None
  end.

(** Modelled from the spec: [child] has shape [(M, N, N, N)] (section 6);
    the missing kernels read [M] and [N] off it. *)
Definition child_shape (child : Tensor) : option (Z * Z) :=
  match sizes child with
  | [M; N1; N2; N3] =>
      if (0 <? M)%Z && (0 <? N1)%Z && (N1 =? N2)%Z && (N2 =? N3)%Z
      then Some (M, N1) else None
  | _ => None
  end.

(** Modelled from the spec: [data] has shape [(M, N, N, N, K)] (section 6);
    the missing kernels read [K] off it. *)
Definition data_channels (data : Tensor) (M N : Z) : option Z :=
  match sizes data with
  | [M'; N1; N2; N3; K] =>
      if (M' =? M)%Z && (N1 =? N)%Z && (N2 =? N)%Z && (N3 =? N)%Z
         && (0 <=? K)%Z
      then Some K else None
  | _ => None
  end.

(** Modelled from the spec: a batch of points or values has shape
    [(Q, width)] (section 6, missing kernels). *)
Definition batch (x : Tensor) : option (Z * Z) :=
  match sizes x with
  | [Qn; w] => if (0 <=? Qn)%Z && (0 <=? w)%Z then Some (Qn, w) else None
  | _ => None
  end.

Definition row (xs : list Q) (w q : Z) : list Q :=
  take (Z.to_nat w) (drop (Z.to_nat (q * w)) xs).

Definition vec3_of (l : list Q) : option vec3 :=
  match l with
  | [a; b; c] => Some (a, b, c)
  | _ => None
  end.

(** Modelled from the spec: [invradius] is a 3-vector or a scalar (section
    3, missing kernels). *)
Definition broadcast3 (l : list Q) : option vec3 :=
  match l with
  | [a] => Some (a, a, a)
  | [a; b; c] => Some (a, b, c)
  | _ => None
  end.

Definition has_length {A} (l : list A) (n : Z) : bool :=
  (Z.of_nat (length l) =? n)%Z.

(** Modelled from the spec: a failure is reported once and the operation is
    abandoned (section 7): a missing kernel that faults leaves memory as it
    found it. *)
Definition finish {A} (h : gmap positive Buffer)
    (o : option (A * gmap positive Buffer))
  : Result A * gmap positive Buffer :=
  match o with
  | Some (a, h') => (Ok a, h')
  | None => (Raise "device-side fault", h)
  end.

(** *** The four kernels *)

(** Modelled from the spec: missing kernel [_query_vertical_cuda], the
    forward query of a batch (sections 4.2 and 6); memory is only read. *)
Definition query_kernel (data child indices offset invradius : Tensor)
  : Kernel Fresh := fun _ h =>
  finish h
    (d ← float_at h data;
     c ← int_at h child;
     ix ← float_at h indices;
     off ← float_at h offset ≫= vec3_of;
     inv ← float_at h invradius ≫= broadcast3;
     '(M, N) ← child_shape child;
     K ← data_channels data M N;
     '(Qn, w) ← batch indices;
     if (w =? 3)%Z && has_length c (M * N * N * N)
        && has_length d (M * N * N * N * K) && has_length ix (Qn * 3)
     then
       rows ← mapM (fun q =>
                      p ← vec3_of (row ix 3 q);
                      query_point c d M N K (map_coord off inv p))
                   (zrange Qn);
       Some (mkFresh [Qn; K] (FloatBuf (concat rows)), h)
     else None).

(** Modelled from the spec: missing kernel [_query_vertical_backward_cuda]:
    the gradient buffer starts at zero and every query adds its share
    (sections 4.2 and 6); memory is only read. *)
Definition query_backward_kernel
    (child indices grad_output offset invradius : Tensor) : Kernel Fresh :=
  fun _ h =>
  finish h
    (c ← int_at h child;
     ix ← float_at h indices;
     go ← float_at h grad_output;
     off ← float_at h offset ≫= vec3_of;
     inv ← float_at h invradius ≫= broadcast3;
     '(M, N) ← child_shape child;
     '(Qn, w) ← batch indices;
     '(Qn', K) ← batch grad_output;
     if (w =? 3)%Z && (Qn' =? Qn)%Z && has_length c (M * N * N * N)
        && has_length ix (Qn * 3) && has_length go (Qn * K)
     then
       grad ← foldl (fun acc q =>
                       g ← acc;
                       p ← vec3_of (row ix 3 q);
                       scatter_point c g M N K (map_coord off inv p)
                                     (row go K q))
                    (Some (replicate (Z.to_nat (M * N * N * N * K)) 0))
                    (zrange Qn);
       Some (mkFresh [M; N; N; N; K] (FloatBuf grad), h)
     else None).

(** Modelled from the spec: missing kernel [_assign_vertical_cuda]: the
    points of the batch are written one after the other into the storage of
    [data] (sections 4.2 and 6); nothing else is written. *)
Definition assign_kernel (data child indices values offset invradius : Tensor)
  : Kernel unit := fun _ h =>
  finish h
    (d ← float_at h data;
     c ← int_at h child;
     ix ← float_at h indices;
     vs ← float_at h values;
     off ← float_at h offset ≫= vec3_of;
     inv ← float_at h invradius ≫= broadcast3;
     '(M, N) ← child_shape child;
     K ← data_channels data M N;
     '(Qn, w) ← batch indices;
     '(Qn', K') ← batch values;
     if (w =? 3)%Z && (Qn' =? Qn)%Z && (K' =? K)%Z
        && has_length c (M * N * N * N)
        && has_length d (M * N * N * N * K) && has_length ix (Qn * 3)
        && has_length vs (Qn * K)
     then
       d' ← foldl (fun acc q =>
                     cur ← acc;
                     p ← vec3_of (row ix 3 q);
                     assign_point c cur M N K (map_coord off inv p)
                                  (row vs K q))
                  (Some d) (zrange Qn);
       Some (tt, <[storage data := FloatBuf d']> h)
     else None).

(** *** The renderer *)

Definition qmin (a b : Q) : Q := if Qle_bool a b then a else b.
Definition qmax (a b : Q) : Q := if Qle_bool a b then b else a.

Definition vadd (a b : vec3) : vec3 :=
  each_axis (fun x => coord x a + coord x b).
Definition vscale (k : Q) (a : vec3) : vec3 :=
  each_axis (fun x => k * coord x a).

(** Modelled from the spec: one slab of the intersection of a ray with the
    unit cube (section 4.3, missing kernel [_volume_render_cuda]): [None]
    when the ray misses the slab, [Some None] when it never leaves it. *)
Definition axis_span (o d : Q) : option (option (Q * Q)) :=
  if Qeq_bool d 0
  then if Qle_bool 0 o && negb (Qle_bool 1 o) then Some None else None
  else Some (Some (qmin ((0 - o) / d) ((1 - o) / d),
                   qmax ((0 - o) / d) ((1 - o) / d))).

(** Modelled from the spec: the intersection of two slabs, and of the three
    of a ray (section 4.3, missing kernel [_volume_render_cuda]). *)
Definition meet (a b : option (Q * Q)) : option (Q * Q) :=
  match a, b with
  | None, s | s, None => s
  | Some (l1, u1), Some (l2, u2) => Some (qmax l1 l2, qmin u1 u2)
  end.

Definition ray_span (o d : vec3) : option (option (Q * Q)) :=
  sx ← axis_span (coord Ax o) (coord Ax d);
  sy ← axis_span (coord Ay o) (coord Ay d);
  sz ← axis_span (coord Az o) (coord Az d);
  Some (meet sx (meet sy sz)).

Section Render.
(** [exp_neg x] stands for [exp (-x)], and [decode] for the colour basis
    evaluated against a view direction; the document fixes neither. *)
Variable exp_neg : Q -> Q.
Variable decode : list Q -> vec3 -> vec3.

(** Modelled from the spec: the march along one ray with front-to-back
    compositing and early termination (section 4.3, missing kernel
    [_volume_render_cuda]). *)
Fixpoint march (steps : nat) (child : list Z) (data : list Q) (M N K : Z)
    (o d vd : vec3) (step_size stop_thresh t : Q) (color : vec3) (trans : Q)
  : option (vec3 * Q) :=
  match steps with
  | O => Some (color, trans)
  | S n =>
      if Qlt_le_dec trans stop_thresh then Some (color, trans)
      else
        match query_point child data M N K (vadd o (vscale t d)) with
        | None => None
        | Some feat =>
            let alpha := 1 - exp_neg (hd 0 feat * step_size) in
            march n child data M N K o d vd step_size stop_thresh
                  (t + step_size)
                  (vadd color (vscale (trans * alpha) (decode (tl feat) vd)))
                  (trans * (1 - alpha))
        end
  end.

(** Modelled from the spec: one ray: entry by slab intersection, march to
    the exit, then the background behind what is left of the transmittance
    (section 4.3).  A ray that would never leave the cube, or a step that
    does not advance, is a fault. *)
Definition render_ray (child : list Z) (data : list Q) (M N K : Z)
    (o d vd : vec3) (step_size stop_thresh background_brightness : Q)
  : option vec3 :=
  let bg := (background_brightness, background_brightness,
             background_brightness) in
  match ray_span o d with
  | None => Some bg
  | Some None => None
  | Some (Some (near, far)) =>
      let t0 := qmax 0 near in
      if Qle_bool far t0 then Some bg
      else if Qle_bool step_size 0 then None
      else
        match march (Z.to_nat (Qceiling ((far - t0) / step_size)))
                    child data M N K o d vd step_size stop_thresh t0
                    (0, 0, 0) 1 with
        | None => None
        | Some (color, trans) => Some (vadd color (vscale trans bg))
        end
  end.

(** Modelled from the spec: missing kernel [_volume_render_cuda], one colour
    per ray (sections 4.3 and 6); memory is only read. *)
Definition render_kernel
    (data child origins dirs vdirs offset invradius : Tensor)
    (step_size stop_thresh background_brightness : Q) : Kernel Fresh :=
  fun _ h =>
  finish h
    (d ← float_at h data;
     c ← int_at h child;
     os ← float_at h origins;
     ds ← float_at h dirs;
     vs ← float_at h vdirs;
     off ← float_at h offset ≫= vec3_of;
     inv ← float_at h invradius ≫= broadcast3;
     '(M, N) ← child_shape child;
     K ← data_channels data M N;
     '(Qn, w) ← batch origins;
     if (w =? 3)%Z && (4 <=? K)%Z && has_length c (M * N * N * N)
        && has_length d (M * N * N * N * K) && has_length os (Qn * 3)
        && has_length ds (Qn * 3) && has_length vs (Qn * 3)
     then
       rows ← mapM (fun q =>
                      o ← vec3_of (row os 3 q);
                      dir ← vec3_of (row ds 3 q);
                      vd ← vec3_of (row vs 3 q);
                      rgb ← render_ray c d M N K (map_coord off inv o)
                                       (map_dir inv dir) vd step_size
                                       stop_thresh background_brightness;
                      Some [coord Ax rgb; coord Ay rgb; coord Az rgb])
                   (zrange Qn);
       Some (mkFresh [Qn; 3%Z] (FloatBuf (concat rows)), h)
     else None).

(** Modelled from the spec: the four missing kernels, behind the
    declarations of the binding. *)
Definition kernels : Kernels :=
  mkKernels query_kernel query_backward_kernel assign_kernel render_kernel.
End Render.
End Spec.

(** ** A small scene

    A grid of two tiles of side 2 with four channels: cell (0,0,0) of the
    root tile refines into tile 1, every other cell is a leaf.  It serves the
    examples below.  [indices] holds one point, which resolves to cell
    (0,0,0) of tile 1, and [centre] the centre of that cell; [points] holds
    two points, which resolve to cell (1,0,1) of tile 1 and to cell (1,1,0)
    of the root tile, and [corners] the lower corners of these two cells. *)

Module Scene.
Local Open Scope Q_scope.

Definition on_gpu (i : nat) (shape : list Z) (ty : ScalarType)
    (addr : positive) : Tensor :=
  mkTensor (CUDA i) true shape ty addr.

Definition data : Tensor := on_gpu 0 [2; 2; 2; 2; 4]%Z Float 1.
Definition child : Tensor := on_gpu 0 [2; 2; 2; 2]%Z Int 2.
Definition indices : Tensor := on_gpu 0 [1; 3]%Z Float 3.
Definition values : Tensor := on_gpu 0 [1; 4]%Z Float 4.
Definition offset : Tensor := on_gpu 0 [3]%Z Float 5.
Definition invradius : Tensor := on_gpu 0 [3]%Z Float 6.
Definition grad_output : Tensor := on_gpu 0 [1; 4]%Z Float 8.
Definition origins : Tensor := on_gpu 0 [1; 3]%Z Float 9.
Definition dirs : Tensor := on_gpu 0 [1; 3]%Z Float 10.
Definition vdirs : Tensor := on_gpu 0 [1; 3]%Z Float 11.
Definition corners : Tensor := on_gpu 0 [2; 3]%Z Float 14.

Definition child_buf : list Z := 1%Z :: replicate 15 0%Z.
Definition data_buf : list Q := inject_Z <$> Spec.zrange 64.

(** The world is the cube [[-1, 1)]: offset 1, inverse radius 1/2. *)
Definition memory : gmap positive Buffer :=
  list_to_map
    [ (1%positive, FloatBuf data_buf);
      (2%positive, IntBuf child_buf);
      (3%positive, FloatBuf [-(4 # 5); -(7 # 10); -(3 # 5)]);
      (4%positive, FloatBuf [10; 20; 30; 40]);
      (5%positive, FloatBuf [1; 1; 1]);
      (6%positive, FloatBuf [1 # 2; 1 # 2; 1 # 2]);
      (7%positive, FloatBuf [-(3 # 4); -(3 # 4); -(3 # 4)]);
      (8%positive, FloatBuf [1; 1; 1; 1]);
      (9%positive, FloatBuf [-(1 # 2); 1 # 2; -2]);
      (10%positive, FloatBuf [0; 0; 1]);
      (11%positive, FloatBuf [0; 0; 1]);
      (12%positive, FloatBuf [-(1 # 5); -(4 # 5); -(2 # 5);
                              2 # 5; 4 # 5; -(3 # 5)]);
      (13%positive, FloatBuf [11; 12; 13; 14; 21; 22; 23; 24]);
      (14%positive, FloatBuf [-(1 # 2); -1; -(1 # 2); 0; 0; -1]) ].

Definition start : State := mkState memory 3 [].

(** Stand-ins for what the document leaves open in the renderer. *)
Definition exp_neg (x : Q) : Q := 1 / (1 + x).
Definition decode (feat : list Q) (vd : Spec.vec3) : Spec.vec3 :=
  (nth 0 feat 0, nth 1 feat 0, nth 2 feat 0).

Definition kernels : Kernels := Spec.kernels exp_neg decode.

(** Kernels that do nothing: they return an empty tensor. *)
Definition idle {A} (a : A) : Kernel A := fun _ h => (Ok a, h).
Definition nothing : Fresh := mkFresh [0%Z] (FloatBuf []).
Definition idle_kernels : Kernels :=
  mkKernels (fun _ _ _ _ _ => idle nothing) (fun _ _ _ _ _ => idle nothing)
            (fun _ _ _ _ _ _ => idle tt)
            (fun _ _ _ _ _ _ _ _ _ _ => idle nothing).
End Scene.

(** ** Vocabulary for the statements below *)

(** An operation raised before anything happened: the caller gets an
    exception and the state (memory, current device, launch log) is the one
    the call started in. *)
Definition raises_before_dispatch {A} (m : M A) (s : State) : Prop :=
  exists msg, m s = (Raise msg, s).

(** The kernel [k] was launched once on device [i] with [args], from state
    [s]: its writes to the storages of [args] are visible afterwards, the
    caller's current device is unchanged and the launch is logged. *)
Definition dispatched {A} (i : nat) (call : Launch) (args : list Tensor)
    (k : Kernel A) (s : State) : Result A * State :=
  let '(r, h') := k i (reach args (heap s)) in
  (r, mkState (reach args h' ∪ heap s) (current_device s)
              (launches s ++ [(i, call)])).

(** A buffer that is not on the device or not contiguous, and its
    opposite. *)
Definition not_ready (x : Tensor) : Prop :=
  is_cuda x = false \/ is_contiguous x = false.

Definition ready (x : Tensor) : Prop :=
  is_cuda x = true /\ is_contiguous x = true.

Definition off_gpu (x : Tensor) : Prop := is_cuda x = false.

(** Two states give a call the same result. *)
Definition same_result {A} (m : M A) (s1 s2 : State) : Prop :=
  (m s1).1 = (m s2).1.

(** The same tensor with another shape and element type. *)
Definition reshaped (shape : list Z) (ty : ScalarType) (x : Tensor) : Tensor :=
  mkTensor (device x) (contiguous x) shape ty (storage x).

(** The same tensor on CUDA device [i]. *)
Definition on_device (i : nat) (x : Tensor) : Tensor :=
  mkTensor (CUDA i) (contiguous x) (sizes x) (scalar_type x) (storage x).

(** The same state with other contents in the storage of [x]. *)
Definition with_contents (x : Tensor) (b : Buffer) (s : State) : State :=
  mkState (<[storage x := b]> (heap s)) (current_device s) (launches s).

(** An early failure of a call in one state is the same early failure in
    another. *)
Definition early_same {A} (m : M A) (s1 s2 : State) : Prop :=
  forall msg, m s1 = (Raise msg, s1) -> m s2 = (Raise msg, s2).

(** A call either failed early, leaving the state as it found it, or it is
    one launch of the kernel [k] on the tensors [args], on some device: the
    result and the memory afterwards are those of [k], and the launch log
    has grown by the one entry [call]. *)
Definition failed_or_launched {A} (call : Launch) (args : list Tensor)
    (k : Kernel A) (s : State) (o : Result A * State) : Prop :=
  (exists msg, o = (Raise msg, s))
  \/ exists i, o = dispatched i call args k s
               /\ launches o.2 = launches s ++ [(i, call)].

(** The two messages of [CHECK_INPUT] are accurate for the tensors [checked]
    (given with the names the messages use, in the order they are checked):
    the call fails early with the message of a tensor exactly when every
    tensor checked before it is on the device and contiguous and this one
    has the defect the message names. *)
Definition blames {A} (m : M A) (s : State)
    (checked : list (string * Tensor)) : Prop :=
  forall (j : nat) (n : string) (x : Tensor),
    checked !! j = Some (n, x) ->
    (m s = (Raise (n +:+ " must be a CUDA tensor"), s)
     <-> Forall ready (take j checked).*2 /\ is_cuda x = false)
    /\ (m s = (Raise (n +:+ " must be contiguous"), s)
        <-> Forall ready (take j checked).*2 /\ is_cuda x = true
            /\ is_contiguous x = false).

(** *** Grids and batches in memory

    What a state has to hold for the kernels of the design document to find
    their inputs as section 6 of the document lists them. *)




(** Row [i] of a batch of points, in grid coordinates. *)
Definition grid_point (off inv : Spec.vec3) (xs : list Q) (i : Z)
  : option Spec.vec3 :=
  p ← Spec.vec3_of (Spec.row xs 3 i); Some (Spec.map_coord off inv p).




(** ** Reading the wrappers: how the checks unfold *)

Lemma bind_TORCH_CHECK {A} (c : bool) (msg : string) (m : M A) (s : State) :
  (TORCH_CHECK c msg ;; m) s = if c then m s else (Raise msg, s).
Proof. unfold mbind, M_bind, TORCH_CHECK. destruct c; reflexivity. Qed.

Lemma bind_CHECK_INPUT {A} (name : string) (x : Tensor) (m : M A) (s : State) :
  (CHECK_INPUT name x ;; m) s =
  if is_cuda x
  then if is_contiguous x then m s
       else (Raise (name +:+ " must be contiguous"), s)
  else (Raise (name +:+ " must be a CUDA tensor"), s).
Proof.
  unfold CHECK_INPUT, CHECK_CUDA, CHECK_CONTIGUOUS, mbind, M_bind, TORCH_CHECK.
  destruct (is_cuda x), (is_contiguous x); reflexivity.
Qed.

Lemma guard_launch {A} (i : nat) (call : Launch) (args : list Tensor)
    (k : Kernel A) (s : State) :
  OptionalCUDAGuard (Some (CUDA i)) (launch call args k) s
  = dispatched i call args k s.
Proof.
  unfold OptionalCUDAGuard, launch, dispatched, set_device; simpl.
  destruct (k i (reach args (heap s))); reflexivity.
Qed.

Lemma guard_device_of {A} (x : Tensor) (call : Launch) (args : list Tensor)
    (k : Kernel A) (s : State) :
  is_cuda x = true ->
  exists i, device x = CUDA i /\
    OptionalCUDAGuard (device_of x) (launch call args k) s
    = dispatched i call args k s.
Proof.
  unfold is_cuda, device_of. destruct (device x) as [|i]; [discriminate|].
  intros _. exists i. split; [reflexivity | apply guard_launch].
Qed.

Lemma launch_dispatched {A} (call : Launch) (args : list Tensor)
    (k : Kernel A) (s : State) :
  launch call args k s = dispatched (current_device s) call args k s.
Proof. reflexivity. Qed.

Lemma dispatched_launches {A} i call args (k : Kernel A) s :
  launches (dispatched i call args k s).2 = launches s ++ [(i, call)].
Proof.
  unfold dispatched. destruct (k i (reach args (heap s))); reflexivity.
Qed.

(** A dispatch is never mistaken for an early failure: it shows in the log. *)
Lemma dispatched_moves {A} i call args (k : Kernel A) s msg :
  dispatched i call args k s <> (Raise msg, s).
Proof.
  intros E.
  pose proof (dispatched_launches i call args k s) as L.
  rewrite E in L; simpl in L.
  apply (f_equal (@length _)) in L. rewrite length_app in L. simpl in L. lia.
Qed.

(** [x.size(-1)] is the last entry of the shape, when there is one. *)
Lemma size_last (x : Tensor) (s : State) :
  size x (-1) s =
  match last (sizes x) with
  | Some k => (Ok k, s)
  | None => (Raise "IndexError: dimension out of range", s)
  end.
Proof.
  unfold size, dim. destruct (sizes x) as [|a l] using rev_ind; [reflexivity|].
  rewrite last_snoc, length_app. simpl length.
  destruct (Z.eqb_spec (Z.of_nat (length l + 1)) 0); [lia|].
  destruct (Z.ltb_spec (-1) (- Z.of_nat (length l + 1))); [lia|].
  destruct (Z.leb_spec (Z.of_nat (length l + 1)) (-1)); [lia|].
  simpl. replace (Z.to_nat (-1 + Z.of_nat (length l + 1))) with (length l) by lia.
  rewrite app_nth2, Nat.sub_diag by lia. reflexivity.
Qed.

Lemma bind_size_last {A} (x : Tensor) (f : Z -> M A) (s : State) :
  (k ← size x (-1); f k) s =
  match last (sizes x) with
  | Some k => f k s
  | None => (Raise "IndexError: dimension out of range", s)
  end.
Proof.
  unfold mbind, M_bind. rewrite size_last. destruct (last (sizes x)); reflexivity.
Qed.

(** Failing early composes along the sequence of checks. *)
Lemma raises_TORCH_CHECK {A} (c : bool) (msg : string) (m : M A) (s : State) :
  raises_before_dispatch (TORCH_CHECK c msg ;; m) s
  <-> c = false \/ raises_before_dispatch m s.
Proof.
  unfold raises_before_dispatch. rewrite bind_TORCH_CHECK.
  destruct c; split.
  - intros H; right; exact H.
  - intros [H|H]; [discriminate | exact H].
  - intros _; left; reflexivity.
  - intros _. eexists; reflexivity.
Qed.

Lemma raises_CHECK_INPUT {A} (name : string) (x : Tensor) (m : M A)
    (s : State) :
  raises_before_dispatch (CHECK_INPUT name x ;; m) s
  <-> not_ready x \/ raises_before_dispatch m s.
Proof.
  unfold raises_before_dispatch, not_ready. rewrite bind_CHECK_INPUT.
  destruct (is_cuda x), (is_contiguous x); split;
    try (intros _; eexists; reflexivity); intros H;
    try (right; exact H); try (left; auto; fail).
  all: destruct H as [[H|H]|H]; try discriminate; exact H.
Qed.

Lemma raises_guard_launch {A} (x : Tensor) call args (k : Kernel A) s :
  raises_before_dispatch (OptionalCUDAGuard (device_of x) (launch call args k)) s
  <-> is_cuda x = false.
Proof.
  unfold is_cuda, device_of. destruct (device x) as [|i]; split.
  - reflexivity.
  - intros _. eexists; reflexivity.
  - intros [msg H]. rewrite guard_launch in H.
    exfalso. exact (dispatched_moves _ _ _ _ _ _ H).
  - discriminate.
Qed.

Lemma raises_launch {A} call args (k : Kernel A) s :
  raises_before_dispatch (launch call args k) s <-> False.
Proof.
  split; [|contradiction]. intros [msg H]. rewrite launch_dispatched in H.
  exact (dispatched_moves _ _ _ _ _ _ H).
Qed.

Lemma raises_size_last {A} (x : Tensor) (f : Z -> M A) (s : State) :
  raises_before_dispatch (k ← size x (-1); f k) s
  <-> forall k, last (sizes x) = Some k -> raises_before_dispatch (f k) s.
Proof.
  unfold raises_before_dispatch. rewrite bind_size_last.
  destruct (last (sizes x)) as [k|]; split.
  - intros H k' [= <-]. exact H.
  - intros H. apply H. reflexivity.
  - discriminate.
  - intros _. eexists; reflexivity.
Qed.

(** Passing a check leaves the rest of the function to run. *)
Lemma pass_CHECK_INPUT {A} (name : string) (x : Tensor) (m : M A) (s : State) :
  is_cuda x = true /\ is_contiguous x = true ->
  (CHECK_INPUT name x ;; m) s = m s.
Proof. intros [H1 H2]. rewrite bind_CHECK_INPUT, H1, H2. reflexivity. Qed.

Lemma pass_TORCH_CHECK {A} (c : bool) (msg : string) (m : M A) (s : State) :
  c = true -> (TORCH_CHECK c msg ;; m) s = m s.
Proof. intros ->. apply bind_TORCH_CHECK. Qed.

Lemma not_ready_iff (x : Tensor) :
  ~ not_ready x <-> is_cuda x = true /\ is_contiguous x = true.
Proof.
  unfold not_ready. destruct (is_cuda x), (is_contiguous x); intuition congruence.
Qed.

Ltac raises_checks :=
  repeat first [ rewrite raises_CHECK_INPUT | rewrite raises_TORCH_CHECK ].

Ltac pass_checks H :=
  repeat (apply Forall_cons in H;
          let H1 := fresh in destruct H as [H1 H];
          rewrite (pass_CHECK_INPUT _ _ _ _ H1)).

Section BindingFacts.
Variable K : Kernels.

Lemma query_vertical_raises data child indices offset invradius s :
  raises_before_dispatch
    (query_vertical K data child indices offset invradius) s
  <-> Exists not_ready [data; child; indices; offset; invradius]
      \/ dim indices <> 2%Z \/ is_floating_point indices = false.
Proof.
  unfold query_vertical. raises_checks. rewrite raises_guard_launch.
  rewrite !Exists_cons, Exists_nil, Z.eqb_neq. unfold not_ready. tauto.
Qed.

Lemma query_vertical_accepts data child indices offset invradius s :
  Forall (fun x => is_cuda x = true /\ is_contiguous x = true)
    [data; child; indices; offset; invradius] ->
  dim indices = 2%Z -> is_floating_point indices = true ->
  exists i, device data = CUDA i /\
    query_vertical K data child indices offset invradius s
    = dispatched i (LQuery data child indices offset invradius)
        [data; child; indices; offset; invradius]
        (_query_vertical_cuda K data child indices offset invradius) s.
Proof.
  intros H Hd Hf. unfold query_vertical.
  assert (is_cuda data = true) by (apply Forall_cons in H; tauto).
  pass_checks H.
  rewrite !pass_TORCH_CHECK by (try apply Z.eqb_eq; assumption).
  apply guard_device_of. assumption.
Qed.

Lemma query_vertical_backward_raises child indices grad_output offset
    invradius s :
  raises_before_dispatch
    (query_vertical_backward K child indices grad_output offset invradius) s
  <-> Exists not_ready [child; grad_output; indices; offset; invradius]
      \/ dim indices <> 2%Z \/ is_floating_point indices = false.
Proof.
  unfold query_vertical_backward. raises_checks. rewrite raises_guard_launch.
  rewrite !Exists_cons, Exists_nil, Z.eqb_neq. unfold not_ready. tauto.
Qed.

Lemma query_vertical_backward_accepts child indices grad_output offset
    invradius s :
  Forall (fun x => is_cuda x = true /\ is_contiguous x = true)
    [child; grad_output; indices; offset; invradius] ->
  dim indices = 2%Z -> is_floating_point indices = true ->
  exists i, device grad_output = CUDA i /\
    query_vertical_backward K child indices grad_output offset invradius s
    = dispatched i (LQueryBackward child indices grad_output offset invradius)
        [child; indices; grad_output; offset; invradius]
        (_query_vertical_backward_cuda K child indices grad_output offset
           invradius) s.
Proof.
  intros H Hd Hf. unfold query_vertical_backward.
  assert (is_cuda grad_output = true)
    by (apply Forall_cons in H; destruct H as [_ H];
        apply Forall_cons in H; tauto).
  pass_checks H.
  rewrite !pass_TORCH_CHECK by (try apply Z.eqb_eq; assumption).
  apply guard_device_of. assumption.
Qed.

Lemma assign_vertical_raises data child indices values offset invradius s :
  raises_before_dispatch
    (assign_vertical K data child indices values offset invradius) s
  <-> Exists not_ready [data; child; indices; values; offset; invradius]
      \/ dim indices <> 2%Z \/ dim values <> 2%Z
      \/ is_floating_point indices = false
      \/ is_floating_point values = false.
Proof.
  unfold assign_vertical. raises_checks. rewrite raises_guard_launch.
  rewrite !Exists_cons, Exists_nil, !Z.eqb_neq. unfold not_ready. tauto.
Qed.

Lemma assign_vertical_accepts data child indices values offset invradius s :
  Forall (fun x => is_cuda x = true /\ is_contiguous x = true)
    [data; child; indices; values; offset; invradius] ->
  dim indices = 2%Z -> dim values = 2%Z ->
  is_floating_point indices = true -> is_floating_point values = true ->
  exists i, device data = CUDA i /\
    assign_vertical K data child indices values offset invradius s
    = dispatched i (LAssign data child indices values offset invradius)
        [data; child; indices; values; offset; invradius]
        (_assign_vertical_cuda K data child indices values offset
           invradius) s.
Proof.
  intros H Hd Hd' Hf Hf'. unfold assign_vertical.
  assert (is_cuda data = true) by (apply Forall_cons in H; tauto).
  pass_checks H.
  rewrite !pass_TORCH_CHECK by (try apply Z.eqb_eq; assumption).
  apply guard_device_of. assumption.
Qed.

Lemma volume_render_raises data child origins dirs vdirs offset invradius
    step_size stop_thresh background_brightness s :
  raises_before_dispatch
    (volume_render K data child origins dirs vdirs offset invradius
       step_size stop_thresh background_brightness) s
  <-> Exists not_ready [data; child; origins; dirs; vdirs; offset; invradius]
      \/ (forall k, last (sizes data) = Some k -> (k < 4)%Z).
Proof.
  unfold volume_render. raises_checks. rewrite raises_size_last.
  setoid_rewrite raises_TORCH_CHECK. setoid_rewrite raises_launch.
  setoid_rewrite Z.leb_gt.
  rewrite !Exists_cons, Exists_nil. unfold not_ready.
  assert ((forall k, last (sizes data) = Some k -> (k < 4)%Z \/ False)
          <-> (forall k, last (sizes data) = Some k -> (k < 4)%Z)) as ->
    by (split; intros H k E; specialize (H k E); tauto).
  tauto.
Qed.

Lemma volume_render_accepts data child origins dirs vdirs offset invradius
    step_size stop_thresh background_brightness s k :
  Forall (fun x => is_cuda x = true /\ is_contiguous x = true)
    [data; child; origins; dirs; vdirs; offset; invradius] ->
  last (sizes data) = Some k -> (4 <= k)%Z ->
  volume_render K data child origins dirs vdirs offset invradius
    step_size stop_thresh background_brightness s
  = dispatched (current_device s)
      (LRender data child origins dirs vdirs offset invradius
         step_size stop_thresh background_brightness)
      [data; child; origins; dirs; vdirs; offset; invradius]
      (_volume_render_cuda K data child origins dirs vdirs offset invradius
         step_size stop_thresh background_brightness) s.
Proof.
  intros H Hl Hk. unfold volume_render.
  pass_checks H. rewrite bind_size_last, Hl, pass_TORCH_CHECK.
  - reflexivity.
  - apply Z.leb_le. exact Hk.
Qed.
End BindingFacts.

(** ** What a launch does to memory *)

Lemma reach_lookup (args : list Tensor) (h : gmap positive Buffer)
    (l : positive) :
  reach args h !! l = if decide (l ∈ storage <$> args) then h !! l else None.
Proof.
  unfold reach. destruct (h !! l) as [b|] eqn:E.
  - case_decide.
    + apply map_lookup_filter_Some. auto.
    + apply map_lookup_filter_None. right. intros b' _. simpl. assumption.
  - case_decide; apply map_lookup_filter_None; left; assumption.
Qed.

Lemma reach_subseteq (args : list Tensor) (h : gmap positive Buffer) :
  reach args h ⊆ h.
Proof. apply map_filter_subseteq. Qed.

Lemma reach_idemp (args : list Tensor) (h : gmap positive Buffer) :
  reach args (reach args h) = reach args h.
Proof.
  apply map_eq. intros l. rewrite !reach_lookup. case_decide; reflexivity.
Qed.

(** A kernel that writes nothing leaves the whole memory as it was. *)
Lemma reach_union_same (args : list Tensor) (h : gmap positive Buffer) :
  reach args (reach args h) ∪ h = h.
Proof.
  rewrite reach_idemp. apply map_subseteq_union, reach_subseteq.
Qed.

(** Memory after a launch, cell by cell: the kernel's view where it reaches,
    the old contents elsewhere. *)
Lemma launched_lookup (args : list Tensor) (h' h : gmap positive Buffer)
    (l : positive) :
  (reach args h' ∪ h) !! l =
  match reach args h' !! l with
  | Some b => Some b
  | None => h !! l
  end.
Proof.
  destruct (reach args h' !! l) as [b|] eqn:E.
  - apply lookup_union_Some_l. assumption.
  - rewrite lookup_union_r by assumption. reflexivity.
Qed.

Lemma reach_insert_outside (args : list Tensor) (h : gmap positive Buffer)
    (l : positive) (b : Buffer) :
  l ∉ storage <$> args -> reach args (<[l := b]> h) = reach args h.
Proof.
  intros Hl. apply map_eq. intros l'. rewrite !reach_lookup.
  case_decide; [|reflexivity].
  apply lookup_insert_ne. intros ->. contradiction.
Qed.

(** ** The result of a call and what it depends on *)

Lemma same_result_CHECK_INPUT {A} name x (m : M A) s1 s2 :
  same_result m s1 s2 -> same_result (CHECK_INPUT name x ;; m) s1 s2.
Proof.
  unfold same_result. rewrite !bind_CHECK_INPUT.
  destruct (is_cuda x), (is_contiguous x); auto.
Qed.

Lemma same_result_TORCH_CHECK {A} c msg (m : M A) s1 s2 :
  same_result m s1 s2 -> same_result (TORCH_CHECK c msg ;; m) s1 s2.
Proof. unfold same_result. rewrite !bind_TORCH_CHECK. destruct c; auto. Qed.

Lemma same_result_guard_launch {A} x call args (k : Kernel A) s1 s2 :
  reach args (heap s1) = reach args (heap s2) ->
  same_result (OptionalCUDAGuard (device_of x) (launch call args k)) s1 s2.
Proof.
  unfold same_result, device_of. intros E.
  destruct (device x) as [|i]; [reflexivity|].
  rewrite !guard_launch. unfold dispatched. rewrite E.
  destruct (k i (reach args (heap s2))); reflexivity.
Qed.

(** ** Outcomes of a call, check by check *)

Lemma post_CHECK_INPUT {A} (P : Result A * State -> Prop) name x (m : M A) s :
  (forall msg, P (Raise msg, s)) -> P (m s) ->
  P ((CHECK_INPUT name x ;; m) s).
Proof.
  intros Hr Hm. rewrite bind_CHECK_INPUT.
  destruct (is_cuda x), (is_contiguous x); auto.
Qed.

Lemma post_TORCH_CHECK {A} (P : Result A * State -> Prop) c msg (m : M A) s :
  (forall msg, P (Raise msg, s)) -> P (m s) ->
  P ((TORCH_CHECK c msg ;; m) s).
Proof. intros Hr Hm. rewrite bind_TORCH_CHECK. destruct c; auto. Qed.

Lemma post_size_last {A} (P : Result A * State -> Prop) x (f : Z -> M A) s :
  (forall msg, P (Raise msg, s)) -> (forall k, P (f k s)) ->
  P ((k ← size x (-1); f k) s).
Proof.
  intros Hr Hm. rewrite bind_size_last. destruct (last (sizes x)); auto.
Qed.

Lemma post_guard_launch {A} (P : Result A * State -> Prop) x call args
    (k : Kernel A) s :
  (forall msg, P (Raise msg, s)) ->
  (forall i, P (dispatched i call args k s)) ->
  P (OptionalCUDAGuard (device_of x) (launch call args k) s).
Proof.
  intros Hr Hm. unfold device_of. destruct (device x) as [|i].
  - apply Hr.
  - rewrite guard_launch. apply Hm.
Qed.

Ltac post_checks :=
  repeat first [ apply post_CHECK_INPUT; [intros; try reflexivity; auto|]
               | apply post_TORCH_CHECK; [intros; try reflexivity; auto|] ].

Lemma dispatched_heap {A} i call args (k : Kernel A) s :
  heap (dispatched i call args k s).2
  = reach args (k i (reach args (heap s))).2 ∪ heap s.
Proof.
  unfold dispatched. destruct (k i (reach args (heap s))); reflexivity.
Qed.

(** Launching a kernel that only reads leaves the memory as it was. *)
Lemma dispatched_reads {A} i call args (k : Kernel A) s :
  (forall h, (k i h).2 = h) -> heap (dispatched i call args k s).2 = heap s.
Proof.
  intros H. rewrite dispatched_heap, H. apply reach_union_same.
Qed.

(** Launching a kernel leaves alone the storages the kernel leaves alone. *)
Lemma dispatched_lookup {A} i call args (k : Kernel A) s l :
  (forall h, (k i h).2 !! l = h !! l) ->
  heap (dispatched i call args k s).2 !! l = heap s !! l.
Proof.
  intros H. rewrite dispatched_heap, launched_lookup, reach_lookup, H.
  rewrite reach_lookup. case_decide; [|reflexivity].
  destruct (heap s !! l); reflexivity.
Qed.

(** A call that returned went through every check. *)
Lemma ok_CHECK_INPUT {A} name x (m : M A) s a s' :
  (CHECK_INPUT name x ;; m) s = (Ok a, s') ->
  (is_cuda x = true /\ is_contiguous x = true) /\ m s = (Ok a, s').
Proof.
  rewrite bind_CHECK_INPUT.
  destruct (is_cuda x), (is_contiguous x); intros H;
    try discriminate; auto.
Qed.

Lemma ok_TORCH_CHECK {A} c msg (m : M A) s a s' :
  (TORCH_CHECK c msg ;; m) s = (Ok a, s') -> c = true /\ m s = (Ok a, s').
Proof. rewrite bind_TORCH_CHECK. destruct c; intros H; try discriminate; auto. Qed.

Lemma assign_vertical_ok_inv (K : Kernels)
    (data child indices values offset invradius : Tensor) (s s' : State)
    (u : unit) :
  assign_vertical K data child indices values offset invradius s = (Ok u, s')
  -> Forall (fun x => is_cuda x = true /\ is_contiguous x = true)
       [data; child; indices; values; offset; invradius]
     /\ exists i, device data = CUDA i /\
          dispatched i (LAssign data child indices values offset invradius)
            [data; child; indices; values; offset; invradius]
            (_assign_vertical_cuda K data child indices values offset
               invradius) s = (Ok u, s').
Proof.
  unfold assign_vertical. intros H.
  repeat match type of H with
         | (CHECK_INPUT _ _ ;; _) _ = _ =>
             let R := fresh "R" in apply ok_CHECK_INPUT in H as [R H]
         | (TORCH_CHECK _ _ ;; _) _ = _ =>
             let R := fresh "R" in apply ok_TORCH_CHECK in H as [R H]
         end.
  split; [repeat (apply Forall_cons; split; [assumption|]); constructor|].
  destruct (guard_device_of data
              (LAssign data child indices values offset invradius)
              [data; child; indices; values; offset; invradius]
              (_assign_vertical_cuda K data child indices values offset
                 invradius) s (proj1 R)) as (i & Hi & E).
  exists i. split; [exact Hi|]. rewrite <- E. exact H.
Qed.

(** ** The kernels of the design document: geometry *)

Section SpecGeometry.
Import Spec.
Local Open Scope Q_scope.

Lemma coord_each_axis (f : Axis -> Q) (a : Axis) : coord a (each_axis f) = f a.
Proof. destruct a; reflexivity. Qed.

Lemma clip_range (N i : Z) : (0 < N)%Z -> (0 <= clip N i <= N - 1)%Z.
Proof. unfold clip. lia. Qed.

Lemma clip_id (N i : Z) : (0 <= i <= N - 1)%Z -> clip N i = i.
Proof. unfold clip. lia. Qed.

Lemma cell_range (N : Z) (g : Q) : (0 < N)%Z -> (0 <= cell N g <= N - 1)%Z.
Proof. apply clip_range. Qed.

(** The fraction along an axis is a proper fraction. *)
Lemma frac_range (N : Z) (g : Q) : 0 <= frac N g /\ frac N g < 1.
Proof.
  unfold frac.
  pose proof (Qfloor_le (g * inject_Z N)).
  pose proof (Qlt_floor (g * inject_Z N)) as L.
  rewrite inject_Z_plus in L. change (inject_Z 1) with 1 in L.
  split; lra.
Qed.

Lemma corners_weights (N : Z) (g : vec3) :
  weights N g =
  [ (1 - frac N (coord Ax g)) * (1 - frac N (coord Ay g))
      * (1 - frac N (coord Az g));
    (1 - frac N (coord Ax g)) * (1 - frac N (coord Ay g))
      * frac N (coord Az g);
    (1 - frac N (coord Ax g)) * frac N (coord Ay g)
      * (1 - frac N (coord Az g));
    (1 - frac N (coord Ax g)) * frac N (coord Ay g) * frac N (coord Az g);
    frac N (coord Ax g) * (1 - frac N (coord Ay g))
      * (1 - frac N (coord Az g));
    frac N (coord Ax g) * (1 - frac N (coord Ay g)) * frac N (coord Az g);
    frac N (coord Ax g) * frac N (coord Ay g) * (1 - frac N (coord Az g));
    frac N (coord Ax g) * frac N (coord Ay g) * frac N (coord Az g) ].
Proof. reflexivity. Qed.

Lemma weights_nonneg (N : Z) (g : vec3) : Forall (fun w => 0 <= w) (weights N g).
Proof.
  rewrite corners_weights.
  pose proof (frac_range N (coord Ax g)) as [? ?].
  pose proof (frac_range N (coord Ay g)) as [? ?].
  pose proof (frac_range N (coord Az g)) as [? ?].
  repeat constructor;
    repeat apply Qmult_le_0_compat; lra.
Qed.

Lemma Qfloor_unique (x : Q) (z : Z) :
  inject_Z z <= x -> x < inject_Z (z + 1) -> Qfloor x = z.
Proof.
  intros H1 H2.
  pose proof (Qfloor_le x) as F1. pose proof (Qlt_floor x) as F2.
  assert (z < Qfloor x + 1)%Z by (rewrite Zlt_Qlt; lra).
  assert (Qfloor x < z + 1)%Z by (rewrite Zlt_Qlt; lra).
  lia.
Qed.

(** The point at offset [r] inside cell [c] falls in cell [c], and [r] is
    what is left for the next level. *)
Lemma cell_of_offset (N c : Z) (r g : Q) :
  (0 < N)%Z -> (0 <= c <= N - 1)%Z -> 0 <= r -> r < 1 ->
  g == (inject_Z c + r) / inject_Z N ->
  cell N g = c /\ remainder N g == r.
Proof.
  intros HN Hc Hr0 Hr1 Hg.
  assert (0 < inject_Z N) as HNq
    by (change 0 with (inject_Z 0); rewrite <- Zlt_Qlt; exact HN).
  assert (g * inject_Z N == inject_Z c + r) as E
    by (rewrite Hg; field; lra).
  assert (Qfloor (g * inject_Z N) = c) as F.
  { apply Qfloor_unique.
    - rewrite E. lra.
    - rewrite E, inject_Z_plus. change (inject_Z 1) with 1. lra. }
  assert (cell N g = c) as C by (unfold cell; rewrite F; apply clip_id, Hc).
  split; [exact C|]. unfold remainder. rewrite C, E. ring.
Qed.

Lemma cell_offset_inside (N c : Z) (r : Q) :
  (0 < N)%Z -> (0 <= c <= N - 1)%Z -> 0 <= r -> r < 1 ->
  0 <= (inject_Z c + r) / inject_Z N /\ (inject_Z c + r) / inject_Z N < 1.
Proof.
  intros HN Hc Hr0 Hr1.
  assert (0 < inject_Z N) as HNq
    by (change 0 with (inject_Z 0); rewrite <- Zlt_Qlt; exact HN).
  assert (0 <= inject_Z c)
    by (change 0 with (inject_Z 0); rewrite <- Zle_Qle; lia).
  assert (inject_Z c + 1 <= inject_Z N).
  { change 1 with (inject_Z 1). rewrite <- inject_Z_plus, <- Zle_Qle. lia. }
  split.
  - apply Qle_shift_div_l; lra.
  - apply Qlt_shift_div_r; lra.
Qed.

Lemma cell3_of_offset (N : Z) (g g' r : vec3) :
  (0 < N)%Z -> inside r ->
  veq g' (each_axis (fun a =>
            (inject_Z (cell N (coord a g)) + coord a r) / inject_Z N)) ->
  cell3 N g' = cell3 N g /\ veq (remainder3 N g') r.
Proof.
  intros HN Hr Hg.
  assert (forall a, cell N (coord a g') = cell N (coord a g)
                    /\ remainder N (coord a g') == coord a r) as H.
  { intros a. specialize (Hg a). rewrite coord_each_axis in Hg.
    destruct (Hr a).
    apply cell_of_offset; auto using cell_range. }
  split.
  - unfold cell3. rewrite (proj1 (H Ax)), (proj1 (H Ay)), (proj1 (H Az)).
    reflexivity.
  - intros a. unfold remainder3. rewrite coord_each_axis. apply H.
Qed.

Lemma descend_step (fuel : nat) (child : list Z) (N T : Z) (g : vec3) :
  descend (S fuel) child N T g =
  match zlookup child (cell_index N T (cell3 N g)) with
  | None => None
  | Some ch =>
      if has_children ch
      then descend fuel child N ch (remainder3 N g)
      else Some (T, g)
  end.
Proof. reflexivity. Qed.

Lemma cell_point_step (r : Q) (fuel : nat) (child : list Z) (N T : Z)
    (g : vec3) :
  cell_point r (S fuel) child N T g =
  match zlookup child (cell_index N T (cell3 N g)) with
  | None => None
  | Some ch =>
      if has_children ch
      then
        match cell_point r fuel child N ch (remainder3 N g) with
        | None => None
        | Some p =>
            Some (each_axis (fun a =>
                    (inject_Z (cell N (coord a g)) + coord a p)
                    / inject_Z N))
        end
      else
        Some (each_axis (fun a =>
                (inject_Z (cell N (coord a g)) + r) / inject_Z N))
  end.
Proof. reflexivity. Qed.


(** The point at offset [r] of the leaf cell of a point resolves to the same
    leaf, and lies at offset [r] of the same cell of it. *)
Lemma descend_at_point (child : list Z) (N : Z) (r : Q) (fuel : nat) :
  (0 < N)%Z -> 0 <= r -> r < 1 -> forall T g Tf gf,
  descend fuel child N T g = Some (Tf, gf) ->
  exists pt,
    cell_point r fuel child N T g = Some pt /\ inside pt
    /\ (exists ch, zlookup child (cell_index N Tf (cell3 N gf)) = Some ch)
    /\ forall g', veq g' pt ->
         exists gf',
           descend fuel child N T g' = Some (Tf, gf')
           /\ forall a, coord a gf'
                        == (inject_Z (cell N (coord a gf)) + r) / inject_Z N.
Proof.
  intros HN Hr0 Hr1. induction fuel as [|fuel IH]; intros T g Tf gf H.
  - discriminate.
  - rewrite descend_step in H. rewrite cell_point_step.
    destruct (zlookup child (cell_index N T (cell3 N g))) as [ch|] eqn:L;
      [|discriminate].
    destruct (has_children ch) eqn:Hc.
    + destruct (IH _ _ _ _ H) as (p & Ep & Hp & Hl & Hq).
      rewrite Ep. eexists. split; [reflexivity|]. split; [|split].
      * intros a. rewrite coord_each_axis. destruct (Hp a).
        apply cell_offset_inside; auto using cell_range.
      * exact Hl.
      * intros g' Hg.
        destruct (cell3_of_offset N g g' p HN Hp Hg) as [Ec Erem].
        rewrite descend_step, Ec, L, Hc. apply Hq. exact Erem.
    + injection H as <- <-.
      eexists. split; [reflexivity|]. split; [|split].
      * intros a. rewrite coord_each_axis.
        apply cell_offset_inside; auto using cell_range.
      * eauto.
      * intros g' Hg.
        assert (inside (each_axis (fun _ => r))) as Hin
          by (intros a; rewrite coord_each_axis; split; assumption).
        assert (veq g' (each_axis (fun a =>
                  (inject_Z (cell N (coord a g))
                   + coord a (each_axis (fun _ => r))) / inject_Z N))) as Hg'.
        { intros a. rewrite (Hg a), !coord_each_axis. reflexivity. }
        destruct (cell3_of_offset N g g' _ HN Hin Hg') as [Ec _].
        rewrite descend_step, Ec, L, Hc. eexists. split; [reflexivity|].
        intros a. rewrite (Hg a), coord_each_axis. reflexivity.
Qed.
End SpecGeometry.

(** ** The kernels of the design document: writing and reading a cell *)

Section SpecCells.
Import Spec.
Local Open Scope Q_scope.

Lemma length_zinsert {A} (i : Z) (x : A) (l : list A) :
  length (zinsert i x l) = length l.
Proof. unfold zinsert. destruct (i <? 0)%Z; [reflexivity|apply length_insert]. Qed.

Lemma read_zinsert_eq (d : list Q) (i : Z) (x : Q) :
  (0 <= i < Z.of_nat (length d))%Z -> read (zinsert i x d) i = x.
Proof.
  intros H. unfold read, zlookup, zinsert.
  destruct (Z.ltb_spec i 0); [lia|].
  rewrite list_lookup_insert_eq by lia. reflexivity.
Qed.

Lemma read_zinsert_ne (d : list Q) (i j : Z) (x : Q) :
  i <> j -> read (zinsert i x d) j = read d j.
Proof.
  intros H. unfold read, zlookup, zinsert.
  destruct (Z.ltb_spec i 0); [reflexivity|].
  destruct (Z.ltb_spec j 0); [reflexivity|].
  rewrite list_lookup_insert_ne by lia. reflexivity.
Qed.

Lemma length_write (base : Z) (l : list (Z * Q)) (d : list Q) :
  length (foldr (fun kx d => zinsert (base + kx.1) kx.2 d) d l) = length d.
Proof.
  induction l as [|kx l IH]; simpl; [reflexivity|].
  rewrite length_zinsert. exact IH.
Qed.

(** Each key of an association list without repeated keys is read back
    with its value; positions that are not written keep theirs. *)
Lemma read_write_assoc (d : list Q) (base : Z) (l : list (Z * Q))
    (k : Z) (x : Q) :
  NoDup l.*1 -> (k, x) ∈ l ->
  (forall kx, kx ∈ l -> (0 <= base + kx.1 < Z.of_nat (length d))%Z) ->
  read (foldr (fun kx d => zinsert (base + kx.1) kx.2 d) d l) (base + k) = x.
Proof.
  induction l as [|[k0 x0] l IH]; intros ND Hin Hr.
  - apply elem_of_nil in Hin. contradiction.
  - simpl in *. apply NoDup_cons in ND as [Hk0 ND].
    apply elem_of_cons in Hin as [E|Hin].
    + injection E as -> ->. apply read_zinsert_eq. rewrite length_write.
      apply (Hr (k0, x0)). left.
    + rewrite read_zinsert_ne.
      * apply IH; auto. intros kx Hkx. apply Hr. right. exact Hkx.
      * intros E. apply Hk0. assert (k0 = k) as -> by lia.
        apply (list_elem_of_fmap_2 fst) in Hin. exact Hin.
Qed.


Lemma zrange_lookup (n : Z) (i : nat) :
  (Z.of_nat i < n)%Z -> zrange n !! i = Some (Z.of_nat i).
Proof.
  intros H. unfold zrange. rewrite list_lookup_fmap, lookup_seq_lt by lia.
  reflexivity.
Qed.

Lemma length_zrange (n : Z) : length (zrange n) = Z.to_nat n.
Proof. unfold zrange. rewrite length_fmap, length_seq. reflexivity. Qed.

Lemma NoDup_zrange (n : Z) : NoDup (zrange n).
Proof.
  unfold zrange. apply NoDup_fmap_2; [apply _|apply NoDup_seq].
Qed.

Lemma zrange_elem (n k : Z) : k ∈ zrange n -> (0 <= k < n)%Z.
Proof.
  unfold zrange. intros H. apply list_elem_of_fmap in H as (i & -> & Hi).
  apply elem_of_seq in Hi. lia.
Qed.

(** What [write_cell] wrote is read back channel by channel. *)
Lemma read_write_cell (d : list Q) (N K T : Z) (c : ivec3) (v : list Q)
    (i : nat) (x : Q) :
  length v = Z.to_nat K ->
  (0 <= cell_index N T c)%Z ->
  ((cell_index N T c + 1) * K <= Z.of_nat (length d))%Z ->
  v !! i = Some x ->
  read (write_cell d N K T c v) (data_index N K T c (Z.of_nat i)) = x.
Proof.
  intros Hv H0 H1 Hi. unfold write_cell, data_index.
  assert (i < length v)%nat by (eapply lookup_lt_Some; eauto).
  apply read_write_assoc.
  - rewrite fst_zip by (rewrite length_zrange; lia). apply NoDup_zrange.
  - apply list_elem_of_lookup. exists i.
    apply lookup_zip_with_Some. do 2 eexists. split; [reflexivity|].
    split; [|exact Hi]. apply zrange_lookup. lia.
  - intros [k y] Hk. simpl.
    apply elem_of_zip_l, zrange_elem in Hk. nia.
Qed.
End SpecCells.

(** ** The kernels of the design document: the round trip of one point *)

Section SpecRoundTrip.
Import Spec.
Local Open Scope Q_scope.


(** At offset [r] of cell [c] the lower tap is [c] itself and the fraction
    is [r]. *)
Lemma taps_at_offset (N c : Z) (r g : Q) :
  (0 < N)%Z -> (0 <= c <= N - 1)%Z -> 0 <= r -> r < 1 ->
  g == (inject_Z c + r) / inject_Z N ->
  corner_lo N g = c /\ frac N g == r.
Proof.
  intros HN Hc Hr0 Hr1 Hg.
  assert (0 < inject_Z N) as HNq
    by (change 0 with (inject_Z 0); rewrite <- Zlt_Qlt; exact HN).
  assert (g * inject_Z N == inject_Z c + r) as E
    by (rewrite Hg; field; lra).
  assert (Qfloor (g * inject_Z N) = c) as F.
  { apply Qfloor_unique.
    - rewrite E. lra.
    - rewrite E, inject_Z_plus. change (inject_Z 1) with 1. lra. }
  split.
  - unfold corner_lo. rewrite F. apply clip_id, Hc.
  - unfold frac. rewrite F, E. ring.
Qed.


(** At the centre of a cell each of the eight corners weighs one eighth. *)
Lemma weights_at_centre (N : Z) (c g : vec3) :
  (0 < N)%Z ->
  (forall a, coord a g
             == (inject_Z (cell N (coord a c)) + (1 # 2)) / inject_Z N) ->
  Forall (fun w => w == 1 # 8) (weights N g).
Proof.
  intros HN Hg.
  assert (0 <= 1 # 2 /\ (1 # 2) < 1) as [Z0 Z1] by lra.
  destruct (taps_at_offset N _ _ _ HN (cell_range N (coord Ax c) HN) Z0 Z1
              (Hg Ax)) as [_ F1].
  destruct (taps_at_offset N _ _ _ HN (cell_range N (coord Ay c) HN) Z0 Z1
              (Hg Ay)) as [_ F2].
  destruct (taps_at_offset N _ _ _ HN (cell_range N (coord Az c) HN) Z0 Z1
              (Hg Az)) as [_ F3].
  rewrite corners_weights.
  repeat constructor; rewrite F1, F2, F3; reflexivity.
Qed.



End SpecRoundTrip.

(** ** The kernels of the design document: the descent ends *)

Section SpecTotal.
Import Spec.
Local Open Scope Z_scope.

Lemma descend_more_fuel (child : list Z) (N : Z) (fuel fuel' : nat) :
  (fuel <= fuel')%nat -> forall T g r,
  descend fuel child N T g = Some r -> descend fuel' child N T g = Some r.
Proof.
  revert fuel'. induction fuel as [|fuel IH]; intros fuel' Hle T g r H.
  - discriminate.
  - destruct fuel' as [|fuel']; [lia|].
    rewrite descend_step in *.
    destruct (zlookup child (cell_index N T (cell3 N g))) as [ch|];
      [|discriminate].
    destruct (has_children ch); [|exact H].
    apply (IH fuel'); [lia|exact H].
Qed.

Lemma cell_index_range (N T : Z) (c : ivec3) :
  0 < N -> 0 <= T ->
  0 <= c.1.1 <= N - 1 -> 0 <= c.1.2 <= N - 1 -> 0 <= c.2 <= N - 1 ->
  T * (N * N * N) <= cell_index N T c < (T + 1) * (N * N * N).
Proof.
  destruct c as [[i j] k]. simpl. intros HN HT Hi Hj Hk. nia.
Qed.

Lemma cell3_index_range (N T : Z) (g : vec3) :
  0 < N -> 0 <= T ->
  T * (N * N * N) <= cell_index N T (cell3 N g) < (T + 1) * (N * N * N).
Proof.
  intros HN HT. apply cell_index_range; auto; simpl; apply cell_range, HN.
Qed.

(** In an ordered grid the descent from tile [T] reaches a leaf within
    [M - T] tiles. *)
Lemma descend_total (child : list Z) (M N : Z) :
  0 < N -> Z.of_nat (length child) = M * N * N * N -> ordered child M N ->
  forall (n : nat) (T : Z) (g : vec3),
    0 <= T < M -> (Z.to_nat (M - T) <= n)%nat ->
    exists Tf gf, descend n child N T g = Some (Tf, gf).
Proof.
  intros HN Hlen Hord n.
  induction n as [|n IH]; intros T g HT Hn; [lia|].
  rewrite descend_step.
  pose proof (cell3_index_range N T g HN (proj1 HT)) as Hi.
  assert (0 < N * N * N) as HN3 by nia.
  destruct (zlookup child (cell_index N T (cell3 N g))) as [ch|] eqn:L.
  - destruct (has_children ch) eqn:Hc; [|eauto].
    unfold zlookup in L.
    destruct (Z.ltb_spec (cell_index N T (cell3 N g)) 0); [discriminate|].
    pose proof (Hord _ _ L Hc) as Hch.
    rewrite Z2Nat.id in Hch by lia.
    assert (cell_index N T (cell3 N g) / (N * N * N) = T) as Hq.
    { symmetry. apply (Z.div_unique _ _ _
                         (cell_index N T (cell3 N g) - T * (N * N * N)));
        lia. }
    rewrite Hq in Hch. apply IH; lia.
  - exfalso. unfold zlookup in L.
    destruct (Z.ltb_spec (cell_index N T (cell3 N g)) 0); [nia|].
    apply lookup_ge_None in L. nia.
Qed.

(** On an ordered grid of the right size every point has a value. *)
Lemma query_point_total (child : list Z) (data : list Q) (M N K : Z)
    (g : vec3) :
  0 < N -> 0 < M -> Z.of_nat (length child) = M * N * N * N ->
  ordered child M N ->
  exists out, query_point child data M N K g = Some out.
Proof.
  intros HN HM Hlen Hord. unfold query_point.
  destruct (descend_total child M N HN Hlen Hord (Z.to_nat M) 0 g)
    as (Tf & gf & E); [lia|lia|].
  rewrite E. eauto.
Qed.

Lemma assign_point_total (child : list Z) (data : list Q) (M N K : Z)
    (g : vec3) (v : list Q) :
  0 < N -> 0 < M -> Z.of_nat (length child) = M * N * N * N ->
  ordered child M N ->
  exists data', assign_point child data M N K g v = Some data'.
Proof.
  intros HN HM Hlen Hord. unfold assign_point.
  destruct (descend_total child M N HN Hlen Hord (Z.to_nat M) 0 g)
    as (Tf & gf & E); [lia|lia|].
  rewrite E. eauto.
Qed.

(** On an ordered grid of the right size every point has a cell, with its
    lower corner inside the unit cube. *)
Lemma leaf_corner_total (child : list Z) (M N : Z) (g : vec3) :
  0 < N -> 0 < M -> Z.of_nat (length child) = M * N * N * N ->
  ordered child M N ->
  exists crn, leaf_corner (Z.to_nat M) child N 0 g = Some crn /\ inside crn.
Proof.
  intros HN HM Hlen Hord.
  destruct (descend_total child M N HN Hlen Hord (Z.to_nat M) 0 g)
    as (Tf & gf & E); [lia|lia|].
  assert (0 <= 0 /\ 0 < 1)%Q as [Z0 Z1] by (split; [apply Qle_refl|reflexivity]).
  destruct (descend_at_point child N 0 _ HN Z0 Z1 _ _ _ _ E)
    as (crn & Ec & Hin & _).
  exists crn. split; assumption.
Qed.
End SpecTotal.

(** ** The kernels of the design document: memory *)

Section SpecMemory.
Import Spec.
Local Open Scope Q_scope.

Lemma finish_ok {A} (h : gmap positive Buffer)
    (o : option (A * gmap positive Buffer)) (a : A)
    (h' : gmap positive Buffer) :
  finish h o = (Ok a, h') -> o = Some (a, h').
Proof.
  unfold finish. destruct o as [[? ?]|]; intros E; inversion E; reflexivity.
Qed.

(** A kernel that returns its memory untouched whenever it completes leaves
    memory untouched. *)
Lemma finish_reads {A} (h : gmap positive Buffer)
    (o : option (A * gmap positive Buffer)) :
  (forall a h', o = Some (a, h') -> h' = h) -> (finish h o).2 = h.
Proof.
  intros H. unfold finish. destruct o as [[a h']|]; simpl; [|reflexivity].
  apply (H a). reflexivity.
Qed.

(** Taking a successful chain of reads and checks apart. *)
Ltac chain_inv H :=
  repeat match type of H with
         | mbind _ ?m = Some _ =>
             let E := fresh "E" in
             destruct m eqn:E; [simpl in H|discriminate]
         | (let '(_, _) := ?p in _) = _ => destruct p
         | (if ?c then _ else _) = _ =>
             let C := fresh "C" in destruct c eqn:C; [|discriminate]
         end.

Lemma query_kernel_reads (data child indices offset invradius : Tensor)
    (dev : nat) (h : gmap positive Buffer) :
  (query_kernel data child indices offset invradius dev h).2 = h.
Proof.
  unfold query_kernel. apply finish_reads. intros a h' H.
  chain_inv H. injection H as _ <-. reflexivity.
Qed.

Lemma query_backward_kernel_reads
    (child indices grad_output offset invradius : Tensor)
    (dev : nat) (h : gmap positive Buffer) :
  (query_backward_kernel child indices grad_output offset invradius dev h).2
  = h.
Proof.
  unfold query_backward_kernel. apply finish_reads. intros a h' H.
  chain_inv H. injection H as _ <-. reflexivity.
Qed.

Lemma render_kernel_reads (exp_neg : Q -> Q) (decode : list Q -> vec3 -> vec3)
    (data child origins dirs vdirs offset invradius : Tensor)
    (step_size stop_thresh background_brightness : Q)
    (dev : nat) (h : gmap positive Buffer) :
  (render_kernel exp_neg decode data child origins dirs vdirs offset
     invradius step_size stop_thresh background_brightness dev h).2 = h.
Proof.
  unfold render_kernel. apply finish_reads. intros a h' H.
  chain_inv H. injection H as _ <-. reflexivity.
Qed.

(** What a completed [assign_kernel] read and wrote. *)
Lemma assign_kernel_inv (data child indices values offset invradius : Tensor)
    (dev : nat) (h h' : gmap positive Buffer) (u : unit) :
  assign_kernel data child indices values offset invradius dev h = (Ok u, h')
  -> exists d c ix vs off inv M N K Qn d',
    float_at h data = Some d /\ int_at h child = Some c /\
    float_at h indices = Some ix /\ float_at h values = Some vs /\
    float_at h offset ≫= vec3_of = Some off /\
    float_at h invradius ≫= broadcast3 = Some inv /\
    child_shape child = Some (M, N) /\ data_channels data M N = Some K /\
    batch indices = Some (Qn, 3%Z) /\ batch values = Some (Qn, K) /\
    has_length c (M * N * N * N) = true /\
    has_length d (M * N * N * N * K) = true /\
    has_length ix (Qn * 3) = true /\ has_length vs (Qn * K) = true /\
    foldl (fun acc q =>
             cur ← acc;
             p ← vec3_of (row ix 3 q);
             assign_point c cur M N K (map_coord off inv p) (row vs K q))
          (Some d) (zrange Qn) = Some d' /\
    h' = <[storage data := FloatBuf d']> h.
Proof.
  intros H. apply finish_ok in H. chain_inv H.
  repeat (apply andb_prop in C as [C ?]).
  repeat match goal with
         | E : (_ =? _)%Z = true |- _ => apply Z.eqb_eq in E; subst
         end.
  injection H as <-.
  repeat eexists; eauto.
Qed.

(** [assign_kernel] writes the storage of [data] and nothing else, and the
    storage of [child] is not the one it writes. *)
Lemma assign_kernel_writes
    (data child indices values offset invradius : Tensor)
    (dev : nat) (h : gmap positive Buffer) (l : positive) :
  l <> storage data \/ l = storage child ->
  (assign_kernel data child indices values offset invradius dev h).2 !! l
  = h !! l.
Proof.
  intros Hl.
  destruct (assign_kernel data child indices values offset invradius dev h)
    as [r h'] eqn:E.
  destruct r as [u|msg].
  - apply assign_kernel_inv in E
      as (d & c & ix & vs & off & inv & M & N & K & Qn & d' & Hd & Hc & E).
    do 13 (destruct E as [_ E]). subst h'. simpl.
    apply lookup_insert_ne. intros Heq. destruct Hl as [Hl| ->].
    + congruence.
    + unfold float_at, int_at in *. rewrite Heq in Hd.
      destruct (h !! storage child) as [[?|?]|]; discriminate.
  - unfold assign_kernel, finish in E.
    match type of E with
    | match ?o with _ => _ end = _ => destruct o as [[? ?]|]
    end; inversion E; reflexivity.
Qed.











End SpecMemory.
(** ** The kernels of the design document: a batch of points *)

Section SpecBatch.
Import Spec.
Local Open Scope Q_scope.

Lemma length_row (xs : list Q) (w q : Z) :
  (0 <= w)%Z -> (0 <= q)%Z -> ((q + 1) * w <= Z.of_nat (length xs))%Z ->
  length (row xs w q) = Z.to_nat w.
Proof.
  intros Hw Hq H. unfold row. rewrite length_take, length_drop. nia.
Qed.

Lemma length_batch_row (xs : list Q) (Qn w q : Z) :
  has_length xs (Qn * w) = true -> (0 <= w)%Z -> (0 <= q < Qn)%Z ->
  length (row xs w q) = Z.to_nat w.
Proof.
  unfold has_length. intros H Hw Hq. apply Z.eqb_eq in H.
  apply length_row; nia.
Qed.

(** Every row of a batch of points is a point. *)
Lemma grid_point_total (off inv : vec3) (xs : list Q) (Qn q : Z) :
  has_length xs (Qn * 3) = true -> (0 <= q < Qn)%Z ->
  exists g, grid_point off inv xs q = Some g.
Proof.
  intros H Hq. unfold grid_point.
  pose proof (length_batch_row xs Qn 3 q H ltac:(lia) Hq) as L.
  destruct (row xs 3 q) as [|a [|b [|c [|? ?]]]]; try discriminate.
  eexists. reflexivity.
Qed.


Section Rows.
Variables (c : list Z) (M N K : Z) (off inv : vec3) (ix vs : list Q).
Hypothesis HN : (0 < N)%Z.
Hypothesis HK : (0 <= K)%Z.
Hypothesis Hc : Z.of_nat (length c) = (M * N * N * N)%Z.




End Rows.

End SpecBatch.

(** ** Properties of the binding *)

(** C1. [query_vertical] raises before anything is computed exactly when one
    of [data], [child], [indices], [offset], [invradius] is not a CUDA tensor
    or not contiguous, or [indices] is not 2-dimensional, or [indices] is not
    floating-point; on every other input it launches the query kernel, on the
    device of [data], and returns what the kernel returns. *)
Theorem query_vertical_validation (K : Kernels)
    (data child indices offset invradius : Tensor) (s : State) :
  (raises_before_dispatch
     (query_vertical K data child indices offset invradius) s
   <-> Exists not_ready [data; child; indices; offset; invradius]
       \/ dim indices <> 2%Z \/ is_floating_point indices = false)
  /\ (Forall ready [data; child; indices; offset; invradius] ->
      dim indices = 2%Z -> is_floating_point indices = true ->
      exists i, device data = CUDA i /\
        query_vertical K data child indices offset invradius s
        = dispatched i (LQuery data child indices offset invradius)
            [data; child; indices; offset; invradius]
            (_query_vertical_cuda K data child indices offset invradius) s).
Proof.
  split.
  - apply query_vertical_raises.
  - apply query_vertical_accepts.
Qed.

Lemma query_vertical_validation_witness :
  raises_before_dispatch
    (query_vertical Scene.kernels Scene.data Scene.child
       (reshaped [3%Z] Float Scene.indices) Scene.offset Scene.invradius)
    Scene.start
  /\ exists i, device Scene.data = CUDA i /\
       query_vertical Scene.kernels Scene.data Scene.child Scene.indices
         Scene.offset Scene.invradius Scene.start
       = dispatched i
           (LQuery Scene.data Scene.child Scene.indices Scene.offset
              Scene.invradius)
           [Scene.data; Scene.child; Scene.indices; Scene.offset;
            Scene.invradius]
           (_query_vertical_cuda Scene.kernels Scene.data Scene.child
              Scene.indices Scene.offset Scene.invradius) Scene.start.
Proof.
  split.
  - apply (proj1 (query_vertical_validation _ _ _ _ _ _ _)).
    right; left. discriminate.
  - apply (proj2 (query_vertical_validation _ _ _ _ _ _ _)).
    + repeat constructor.
    + reflexivity.
    + reflexivity.
Defined.

(** C2. When the last dimension of [data] has fewer than 4 entries,
    [volume_render] raises before the render kernel is launched.  When it
    has at least 4, the only early failures left are those of the device and
    contiguity checks, and an input that passes them is dispatched. *)
Theorem volume_render_channels (K : Kernels)
    (data child origins dirs vdirs offset invradius : Tensor)
    (step_size stop_thresh background_brightness : Q) (s : State) (k : Z) :
  last (sizes data) = Some k ->
  ((k < 4)%Z ->
   raises_before_dispatch
     (volume_render K data child origins dirs vdirs offset invradius
        step_size stop_thresh background_brightness) s)
  /\ ((4 <= k)%Z ->
      (raises_before_dispatch
         (volume_render K data child origins dirs vdirs offset invradius
            step_size stop_thresh background_brightness) s
       <-> Exists not_ready
             [data; child; origins; dirs; vdirs; offset; invradius])
      /\ (Forall ready [data; child; origins; dirs; vdirs; offset; invradius]
          -> volume_render K data child origins dirs vdirs offset invradius
               step_size stop_thresh background_brightness s
             = dispatched (current_device s)
                 (LRender data child origins dirs vdirs offset invradius
                    step_size stop_thresh background_brightness)
                 [data; child; origins; dirs; vdirs; offset; invradius]
                 (_volume_render_cuda K data child origins dirs vdirs offset
                    invradius step_size stop_thresh background_brightness)
                 s)).
Proof.
  intros Hl. split; [|intros Hk; split].
  - intros Hk. apply volume_render_raises. right.
    intros k' E. rewrite Hl in E. injection E as <-. exact Hk.
  - rewrite volume_render_raises. split; [|auto].
    intros [Hn|Hn]; [exact Hn|].
    specialize (Hn k Hl). lia.
  - intros Hr. apply volume_render_accepts with (k := k); assumption.
Qed.

Lemma volume_render_channels_witness :
  raises_before_dispatch
    (volume_render Scene.kernels
       (reshaped [2; 2; 2; 2; 3]%Z Float Scene.data) Scene.child
       Scene.origins Scene.dirs Scene.vdirs Scene.offset Scene.invradius
       (1 # 4) (1 # 100) 1) Scene.start.
Proof.
  apply (proj1 (volume_render_channels Scene.kernels
                  (reshaped [2; 2; 2; 2; 3]%Z Float Scene.data) Scene.child
                  Scene.origins Scene.dirs Scene.vdirs Scene.offset
                  Scene.invradius (1 # 4) (1 # 100) 1 Scene.start 3%Z
                  eq_refl)).
  reflexivity.
Defined.

(** A tensor without dimensions has no last dimension to inspect: asking for
    it is itself the error. *)
Lemma volume_render_scalar_data (K : Kernels)
    (data child origins dirs vdirs offset invradius : Tensor)
    (step_size stop_thresh background_brightness : Q) (s : State) :
  sizes data = [] ->
  raises_before_dispatch
    (volume_render K data child origins dirs vdirs offset invradius
       step_size stop_thresh background_brightness) s.
Proof.
  intros E. apply volume_render_raises. right. rewrite E. discriminate.
Qed.

Lemma not_ready_reshaped (shape : list Z) (ty : ScalarType) (x : Tensor) :
  not_ready (reshaped shape ty x) <-> not_ready x.
Proof. reflexivity. Qed.

(** C3, as stated, fails: a [data] of rank 1 with integer elements and a
    [child] of rank 1 with floating elements go through [query_vertical] to
    the kernel, and so do [origins] of rank 1 with integer elements through
    [volume_render]. *)
Lemma rank_dtype_not_all_checked :
  query_vertical Scene.idle_kernels
    (reshaped [7%Z] Int Scene.data) (reshaped [7%Z] Float Scene.child)
    Scene.indices Scene.offset Scene.invradius Scene.start
  = (Ok Scene.nothing,
     mkState Scene.memory 3
       [(0%nat, LQuery (reshaped [7%Z] Int Scene.data)
                  (reshaped [7%Z] Float Scene.child)
                  Scene.indices Scene.offset Scene.invradius)])
  /\ volume_render Scene.idle_kernels Scene.data Scene.child
       (reshaped [5%Z] Long Scene.origins) Scene.dirs Scene.vdirs
       Scene.offset Scene.invradius (1 # 4) (1 # 100) 1 Scene.start
     = (Ok Scene.nothing,
        mkState Scene.memory 3
          [(3%nat, LRender Scene.data Scene.child
                     (reshaped [5%Z] Long Scene.origins) Scene.dirs
                     Scene.vdirs Scene.offset Scene.invradius
                     (1 # 4) (1 # 100) 1)]).
Proof. split; vm_compute; reflexivity. Qed.

(** C3, amended.  An [indices] tensor that is not of rank 2 or not
    floating-point makes [query_vertical], [query_vertical_backward] and
    [assign_vertical] raise before the kernel is launched, and so does such a
    [values] tensor in [assign_vertical]; [volume_render] raises on a [data]
    without dimensions.  Whether a call fails early does not depend on the
    rank or element type of [child], [offset] and [invradius], nor, outside
    [volume_render], of [data]. *)
Theorem rank_dtype_validation (K : Kernels) (s : State) :
  (forall data child indices offset invradius,
      dim indices <> 2%Z \/ is_floating_point indices = false ->
      raises_before_dispatch
        (query_vertical K data child indices offset invradius) s)
  /\ (forall child indices grad_output offset invradius,
      dim indices <> 2%Z \/ is_floating_point indices = false ->
      raises_before_dispatch
        (query_vertical_backward K child indices grad_output offset
           invradius) s)
  /\ (forall data child indices values offset invradius,
      dim indices <> 2%Z \/ dim values <> 2%Z
      \/ is_floating_point indices = false
      \/ is_floating_point values = false ->
      raises_before_dispatch
        (assign_vertical K data child indices values offset invradius) s)
  /\ (forall data child origins dirs vdirs offset invradius st th bg,
      sizes data = [] ->
      raises_before_dispatch
        (volume_render K data child origins dirs vdirs offset invradius
           st th bg) s)
  /\ (forall data child indices offset invradius sd td sc tc so to sr tr,
      raises_before_dispatch
        (query_vertical K (reshaped sd td data) (reshaped sc tc child)
           indices (reshaped so to offset) (reshaped sr tr invradius)) s
      <-> raises_before_dispatch
            (query_vertical K data child indices offset invradius) s)
  /\ (forall child indices grad_output offset invradius sc tc so to sr tr,
      raises_before_dispatch
        (query_vertical_backward K (reshaped sc tc child) indices
           grad_output (reshaped so to offset) (reshaped sr tr invradius)) s
      <-> raises_before_dispatch
            (query_vertical_backward K child indices grad_output offset
               invradius) s)
  /\ (forall data child indices values offset invradius
        sd td sc tc so to sr tr,
      raises_before_dispatch
        (assign_vertical K (reshaped sd td data) (reshaped sc tc child)
           indices values (reshaped so to offset)
           (reshaped sr tr invradius)) s
      <-> raises_before_dispatch
            (assign_vertical K data child indices values offset invradius) s)
  /\ (forall data child origins dirs vdirs offset invradius st th bg
        sc tc so to sr tr,
      raises_before_dispatch
        (volume_render K data (reshaped sc tc child) origins dirs vdirs
           (reshaped so to offset) (reshaped sr tr invradius) st th bg) s
      <-> raises_before_dispatch
            (volume_render K data child origins dirs vdirs offset invradius
               st th bg) s).
Proof.
  repeat apply conj; intros.
  - apply query_vertical_raises. tauto.
  - apply query_vertical_backward_raises. tauto.
  - apply assign_vertical_raises. tauto.
  - eapply volume_render_scalar_data. eassumption.
  - rewrite !query_vertical_raises, !Exists_cons, !not_ready_reshaped. reflexivity.
  - rewrite !query_vertical_backward_raises, !Exists_cons, !not_ready_reshaped. reflexivity.
  - rewrite !assign_vertical_raises, !Exists_cons, !not_ready_reshaped. reflexivity.
  - rewrite !volume_render_raises, !Exists_cons, !not_ready_reshaped. reflexivity.
Qed.

Lemma rank_dtype_validation_witness :
  raises_before_dispatch
    (assign_vertical Scene.kernels Scene.data Scene.child Scene.indices
       (reshaped [1; 4]%Z Long Scene.values) Scene.offset Scene.invradius)
    Scene.start.
Proof.
  apply (proj1 (proj2 (proj2 (rank_dtype_validation Scene.kernels
                                Scene.start)))).
  right; right; right. reflexivity.
Defined.

(** C4, as stated, fails: with [data] on CUDA device 0 and [child] on CUDA
    device 1, [query_vertical] launches the kernel (on device 0), and
    [volume_render] launches it on whatever device is current. *)
Lemma mixed_devices_dispatched :
  query_vertical Scene.idle_kernels Scene.data (on_device 1 Scene.child)
    Scene.indices Scene.offset Scene.invradius Scene.start
  = (Ok Scene.nothing,
     mkState Scene.memory 3
       [(0%nat, LQuery Scene.data (on_device 1 Scene.child) Scene.indices
                  Scene.offset Scene.invradius)])
  /\ volume_render Scene.idle_kernels Scene.data (on_device 1 Scene.child)
       Scene.origins (on_device 2 Scene.dirs) Scene.vdirs Scene.offset
       Scene.invradius (1 # 4) (1 # 100) 1 Scene.start
     = (Ok Scene.nothing,
        mkState Scene.memory 3
          [(3%nat, LRender Scene.data (on_device 1 Scene.child)
                     Scene.origins (on_device 2 Scene.dirs) Scene.vdirs
                     Scene.offset Scene.invradius (1 # 4) (1 # 100) 1)]).
Proof. split; vm_compute; reflexivity. Qed.

Lemma off_gpu_not_ready (l : list Tensor) :
  Exists off_gpu l -> Exists not_ready l.
Proof. intros H. eapply Exists_impl; [exact H|]. intros x Hx. left. exact Hx. Qed.

(** C4, amended.  Each of the four operations raises before the kernel is
    launched whenever one of its tensors is not a CUDA tensor.  Which CUDA
    devices the tensors are on plays no part in that: moving any of them to
    other CUDA devices turns no early failure into a launch and no launch
    into an early failure. *)
Theorem device_validation (K : Kernels) (s : State) :
  (forall data child indices offset invradius,
      Exists off_gpu [data; child; indices; offset; invradius] ->
      raises_before_dispatch
        (query_vertical K data child indices offset invradius) s)
  /\ (forall child indices grad_output offset invradius,
      Exists off_gpu [child; indices; grad_output; offset; invradius] ->
      raises_before_dispatch
        (query_vertical_backward K child indices grad_output offset
           invradius) s)
  /\ (forall data child indices values offset invradius,
      Exists off_gpu [data; child; indices; values; offset; invradius] ->
      raises_before_dispatch
        (assign_vertical K data child indices values offset invradius) s)
  /\ (forall data child origins dirs vdirs offset invradius st th bg,
      Exists off_gpu [data; child; origins; dirs; vdirs; offset; invradius]
      -> raises_before_dispatch
           (volume_render K data child origins dirs vdirs offset invradius
              st th bg) s)
  /\ (forall data child indices offset invradius (i1 i2 i3 i4 i5 j : nat),
      raises_before_dispatch
        (query_vertical K (on_device i1 data) (on_device i2 child)
           (on_device i3 indices) (on_device i4 offset)
           (on_device i5 invradius)) s
      <-> raises_before_dispatch
            (query_vertical K (on_device j data) (on_device j child)
               (on_device j indices) (on_device j offset)
               (on_device j invradius)) s)
  /\ (forall child indices grad_output offset invradius
        (i1 i2 i3 i4 i5 j : nat),
      raises_before_dispatch
        (query_vertical_backward K (on_device i1 child)
           (on_device i2 indices) (on_device i3 grad_output)
           (on_device i4 offset) (on_device i5 invradius)) s
      <-> raises_before_dispatch
            (query_vertical_backward K (on_device j child)
               (on_device j indices) (on_device j grad_output)
               (on_device j offset) (on_device j invradius)) s)
  /\ (forall data child indices values offset invradius
        (i1 i2 i3 i4 i5 i6 j : nat),
      raises_before_dispatch
        (assign_vertical K (on_device i1 data) (on_device i2 child)
           (on_device i3 indices) (on_device i4 values)
           (on_device i5 offset) (on_device i6 invradius)) s
      <-> raises_before_dispatch
            (assign_vertical K (on_device j data) (on_device j child)
               (on_device j indices) (on_device j values)
               (on_device j offset) (on_device j invradius)) s)
  /\ (forall data child origins dirs vdirs offset invradius st th bg
        (i1 i2 i3 i4 i5 i6 i7 j : nat),
      raises_before_dispatch
        (volume_render K (on_device i1 data) (on_device i2 child)
           (on_device i3 origins) (on_device i4 dirs) (on_device i5 vdirs)
           (on_device i6 offset) (on_device i7 invradius) st th bg) s
      <-> raises_before_dispatch
            (volume_render K (on_device j data) (on_device j child)
               (on_device j origins) (on_device j dirs) (on_device j vdirs)
               (on_device j offset) (on_device j invradius) st th bg) s).
Proof.
  repeat apply conj; intros.
  - apply query_vertical_raises. left.
    apply off_gpu_not_ready in H.
    rewrite !Exists_cons in *. tauto.
  - apply query_vertical_backward_raises. left.
    apply off_gpu_not_ready in H.
    rewrite !Exists_cons in *. tauto.
  - apply assign_vertical_raises. left. apply off_gpu_not_ready. assumption.
  - apply volume_render_raises. left. apply off_gpu_not_ready. assumption.
  - rewrite !query_vertical_raises, !Exists_cons. reflexivity.
  - rewrite !query_vertical_backward_raises, !Exists_cons. reflexivity.
  - rewrite !assign_vertical_raises, !Exists_cons. reflexivity.
  - rewrite !volume_render_raises, !Exists_cons. reflexivity.
Qed.

Lemma device_validation_witness :
  raises_before_dispatch
    (query_vertical Scene.kernels Scene.data Scene.child Scene.indices
       (mkTensor CPU true [3%Z] Float 5) Scene.invradius) Scene.start.
Proof.
  apply (proj1 (device_validation Scene.kernels Scene.start)).
  do 3 apply Exists_cons_tl. apply Exists_cons_hd. reflexivity.
Defined.

(** C5.  When [assign_vertical] rejects its input (a tensor off the device or
    not contiguous, [indices] or [values] not of rank 2 or not
    floating-point), the caller gets an exception, no kernel was launched
    and the whole memory, the buffer of [data] included, is what it was. *)
Theorem assign_vertical_fails_clean (K : Kernels)
    (data child indices values offset invradius : Tensor) (s : State) :
  Exists not_ready [data; child; indices; values; offset; invradius]
  \/ dim indices <> 2%Z \/ dim values <> 2%Z
  \/ is_floating_point indices = false
  \/ is_floating_point values = false ->
  exists msg,
    (assign_vertical K data child indices values offset invradius s).1
    = Raise msg
    /\ launches
         (assign_vertical K data child indices values offset invradius s).2
       = launches s
    /\ heap (assign_vertical K data child indices values offset invradius s).2
       = heap s
    /\ heap (assign_vertical K data child indices values offset invradius s).2
         !! storage data
       = heap s !! storage data.
Proof.
  intros H.
  destruct (proj2 (assign_vertical_raises K data child indices values offset
                     invradius s) H) as [msg E].
  exists msg. rewrite E. simpl. auto.
Qed.

Lemma assign_vertical_fails_clean_witness :
  exists msg,
    (assign_vertical Scene.kernels Scene.data Scene.child
       (reshaped [3%Z] Float Scene.indices) Scene.values Scene.offset
       Scene.invradius Scene.start).1 = Raise msg
    /\ launches
         (assign_vertical Scene.kernels Scene.data Scene.child
            (reshaped [3%Z] Float Scene.indices) Scene.values Scene.offset
            Scene.invradius Scene.start).2 = launches Scene.start
    /\ heap
         (assign_vertical Scene.kernels Scene.data Scene.child
            (reshaped [3%Z] Float Scene.indices) Scene.values Scene.offset
            Scene.invradius Scene.start).2 = heap Scene.start
    /\ heap
         (assign_vertical Scene.kernels Scene.data Scene.child
            (reshaped [3%Z] Float Scene.indices) Scene.values Scene.offset
            Scene.invradius Scene.start).2 !! storage Scene.data
       = heap Scene.start !! storage Scene.data.
Proof.
  apply (assign_vertical_fails_clean Scene.kernels Scene.data Scene.child
           (reshaped [3%Z] Float Scene.indices) Scene.values Scene.offset
           Scene.invradius Scene.start).
  right; left. discriminate.
Defined.

(** The result of [query_vertical_backward] is a function of what its five
    tensors hold. *)
Lemma query_vertical_backward_frame (K : Kernels)
    (child indices grad_output offset invradius : Tensor) (s1 s2 : State) :
  reach [child; indices; grad_output; offset; invradius] (heap s1)
  = reach [child; indices; grad_output; offset; invradius] (heap s2) ->
  same_result
    (query_vertical_backward K child indices grad_output offset invradius)
    s1 s2.
Proof.
  intros E. unfold query_vertical_backward.
  repeat first [ apply same_result_CHECK_INPUT
               | apply same_result_TORCH_CHECK ].
  apply same_result_guard_launch. exact E.
Qed.

(** C10.  [query_vertical_backward] does not take [data]: whatever the buffer
    of [data] holds, the call returns the same result (the same gradient
    tensor, or the same exception), provided none of its five tensors is a
    view of that buffer. *)
Theorem query_vertical_backward_ignores_data (K : Kernels)
    (data child indices grad_output offset invradius : Tensor)
    (b : Buffer) (s : State) :
  storage data ∉ storage <$> [child; indices; grad_output; offset; invradius]
  -> (query_vertical_backward K child indices grad_output offset invradius
        (with_contents data b s)).1
     = (query_vertical_backward K child indices grad_output offset invradius
          s).1.
Proof.
  intros H. apply query_vertical_backward_frame. simpl.
  apply reach_insert_outside. exact H.
Qed.

Lemma query_vertical_backward_ignores_data_witness :
  (query_vertical_backward Scene.kernels Scene.child Scene.indices
     Scene.grad_output Scene.offset Scene.invradius
     (with_contents Scene.data (FloatBuf (replicate 64 (7 # 3))) Scene.start)).1
  = (query_vertical_backward Scene.kernels Scene.child Scene.indices
       Scene.grad_output Scene.offset Scene.invradius Scene.start).1.
Proof.
  apply (query_vertical_backward_ignores_data Scene.kernels Scene.data).
  vm_compute. intros H.
  repeat (apply elem_of_cons in H; destruct H as [H|H]; [discriminate|]).
  apply elem_of_nil in H. exact H.
Defined.

Lemma dispatched_device {A} i call args (k : Kernel A) s :
  current_device (dispatched i call args k s).2 = current_device s.
Proof.
  unfold dispatched. destruct (k i (reach args (heap s))); reflexivity.
Qed.

(** X1.  The device guard of [query_vertical]: the kernel runs with the device of
    [data] as the current device, and the caller finds its own current
    device again afterwards. *)
Theorem query_vertical_device_guard (K : Kernels)
    (data child indices offset invradius : Tensor) (s : State) :
  Forall ready [data; child; indices; offset; invradius] ->
  dim indices = 2%Z -> is_floating_point indices = true ->
  exists i, device data = CUDA i
    /\ launches (query_vertical K data child indices offset invradius s).2
       = launches s ++ [(i, LQuery data child indices offset invradius)]
    /\ current_device
         (query_vertical K data child indices offset invradius s).2
       = current_device s.
Proof.
  intros Hr Hd Hf.
  destruct (query_vertical_accepts K data child indices offset invradius s
              Hr Hd Hf) as (i & Hi & E).
  exists i. rewrite E, dispatched_launches, dispatched_device. auto.
Qed.

Lemma query_vertical_device_guard_witness :
  exists i, device Scene.data = CUDA i
    /\ launches (query_vertical Scene.kernels Scene.data Scene.child
                   Scene.indices Scene.offset Scene.invradius Scene.start).2
       = launches Scene.start
         ++ [(i, LQuery Scene.data Scene.child Scene.indices Scene.offset
                   Scene.invradius)]
    /\ current_device
         (query_vertical Scene.kernels Scene.data Scene.child Scene.indices
            Scene.offset Scene.invradius Scene.start).2
       = current_device Scene.start.
Proof.
  apply (query_vertical_device_guard Scene.kernels Scene.data Scene.child
           Scene.indices Scene.offset Scene.invradius Scene.start).
  - repeat constructor.
  - reflexivity.
  - reflexivity.
Defined.

(** X2.  [volume_render] installs no device guard: its kernel runs on whatever
    device is current when the call is made. *)
Theorem volume_render_ambient_device (K : Kernels)
    (data child origins dirs vdirs offset invradius : Tensor)
    (step_size stop_thresh background_brightness : Q) (s : State) (k : Z) :
  Forall ready [data; child; origins; dirs; vdirs; offset; invradius] ->
  last (sizes data) = Some k -> (4 <= k)%Z ->
  launches (volume_render K data child origins dirs vdirs offset invradius
              step_size stop_thresh background_brightness s).2
  = launches s
    ++ [(current_device s,
         LRender data child origins dirs vdirs offset invradius step_size
           stop_thresh background_brightness)].
Proof.
  intros Hr Hl Hk.
  rewrite (volume_render_accepts K data child origins dirs vdirs offset
             invradius step_size stop_thresh background_brightness s k
             Hr Hl Hk).
  apply dispatched_launches.
Qed.

Lemma volume_render_ambient_device_witness :
  launches (volume_render Scene.kernels Scene.data Scene.child Scene.origins
              Scene.dirs Scene.vdirs Scene.offset Scene.invradius
              (1 # 4) (1 # 100) 1 Scene.start).2
  = launches Scene.start
    ++ [(3%nat,
         LRender Scene.data Scene.child Scene.origins Scene.dirs Scene.vdirs
           Scene.offset Scene.invradius (1 # 4) (1 # 100) 1)].
Proof.
  apply (volume_render_ambient_device Scene.kernels Scene.data Scene.child
           Scene.origins Scene.dirs Scene.vdirs Scene.offset Scene.invradius
           (1 # 4) (1 # 100) 1 Scene.start 4%Z).
  - repeat constructor.
  - reflexivity.
  - discriminate.
Defined.

(** X3.  The checks run in the order they are written: a [data] that is not a
    CUDA tensor is what the caller hears about, whatever else is wrong. *)
Theorem query_vertical_first_complaint (K : Kernels)
    (data child indices offset invradius : Tensor) (s : State) :
  is_cuda data = false ->
  query_vertical K data child indices offset invradius s
  = (Raise "data must be a CUDA tensor", s).
Proof.
  intros H. unfold query_vertical. rewrite bind_CHECK_INPUT, H. reflexivity.
Qed.

Lemma query_vertical_first_complaint_witness :
  query_vertical Scene.kernels (mkTensor CPU false [7%Z] Int 1)
    (reshaped [3%Z] Float Scene.child) Scene.values Scene.offset
    Scene.invradius Scene.start
  = (Raise "data must be a CUDA tensor", Scene.start).
Proof.
  apply (query_vertical_first_complaint Scene.kernels). reflexivity.
Defined.

(** ** Properties of the kernels of the design document *)

(** C7.  The coordinate mapper is a function of its three arguments alone;
    along every axis it returns [(x + offset) * invradius], and it clamps
    nothing: with a non-zero inverse radius every grid coordinate, inside or
    outside the unit cube, is the image of some point. *)
Theorem map_coord_affine (offset invradius : Spec.vec3) :
  (forall (x : Spec.vec3) (a : Spec.Axis),
      Spec.coord a (Spec.map_coord offset invradius x)
      = (Spec.coord a x + Spec.coord a offset) * Spec.coord a invradius)%Q
  /\ ((forall a, ~ Spec.coord a invradius == 0) ->
      forall g : Spec.vec3, exists x : Spec.vec3,
        forall a, Spec.coord a (Spec.map_coord offset invradius x)
                  == Spec.coord a g).
Proof.
  split.
  - intros x a. unfold Spec.map_coord. apply coord_each_axis.
  - intros Hr g.
    exists (Spec.each_axis (fun a =>
              Spec.coord a g / Spec.coord a invradius
              - Spec.coord a offset)%Q).
    intros a. unfold Spec.map_coord. rewrite !coord_each_axis.
    specialize (Hr a). field. exact Hr.
Qed.

(** A point outside the world cube lands outside the unit cube. *)
Lemma map_coord_affine_witness :
  exists x : Spec.vec3, forall a,
    Spec.coord a (Spec.map_coord (1, 1, 1)%Q (1 # 2, 1 # 2, 1 # 2)%Q x)
    == Spec.coord a (3, -2, 1 # 2)%Q.
Proof.
  apply (proj2 (map_coord_affine (1, 1, 1)%Q (1 # 2, 1 # 2, 1 # 2)%Q)).
  intros a; destruct a; discriminate.
Defined.

(** C9.  For every query coordinate, on a corner, an edge, a face or
    anywhere else, the query has eight trilinear weights, none of them
    negative, and they add up to 1. *)
Theorem weights_sum_to_one (N : Z) (g : Spec.vec3) :
  length (Spec.weights N g) = 8%nat
  /\ Forall (fun w => 0 <= w)%Q (Spec.weights N g)
  /\ Spec.Qsum (Spec.weights N g) == 1.
Proof.
  split; [reflexivity|]. split; [apply weights_nonneg|].
  rewrite corners_weights. unfold Spec.Qsum. simpl. ring.
Qed.

(** C6.  With the kernels of the design document behind the binding,
    [query_vertical], [query_vertical_backward] and [volume_render] leave the
    whole device memory as it was, the buffers of [data] and [child]
    included; [assign_vertical] changes no storage but that of [data], never
    the one of [child]; and [assign_vertical] does change the buffer of
    [data] when it writes a new value. *)
Theorem only_assign_writes_data (exp_neg : Q -> Q)
    (decode : list Q -> Spec.vec3 -> Spec.vec3) (s : State) :
  (forall data child indices offset invradius,
      heap (query_vertical (Spec.kernels exp_neg decode) data child indices
              offset invradius s).2 = heap s)
  /\ (forall child indices grad_output offset invradius,
      heap (query_vertical_backward (Spec.kernels exp_neg decode) child
              indices grad_output offset invradius s).2 = heap s)
  /\ (forall data child origins dirs vdirs offset invradius st th bg,
      heap (volume_render (Spec.kernels exp_neg decode) data child origins
              dirs vdirs offset invradius st th bg s).2 = heap s)
  /\ (forall data child indices values offset invradius l,
      l <> storage data \/ l = storage child ->
      heap (assign_vertical (Spec.kernels exp_neg decode) data child indices
              values offset invradius s).2 !! l = heap s !! l)
  /\ heap (assign_vertical (Spec.kernels exp_neg decode) Scene.data
             Scene.child Scene.indices Scene.values Scene.offset
             Scene.invradius Scene.start).2 !! storage Scene.data
     <> heap Scene.start !! storage Scene.data.
Proof.
  repeat apply conj; intros.
  - unfold query_vertical. post_checks.
    apply post_guard_launch; [reflexivity|]. intros i.
    apply dispatched_reads. intros h. apply query_kernel_reads.
  - unfold query_vertical_backward. post_checks.
    apply post_guard_launch; [reflexivity|]. intros i.
    apply dispatched_reads. intros h. apply query_backward_kernel_reads.
  - unfold volume_render. post_checks.
    apply post_size_last; [reflexivity|]. intros k.
    apply post_TORCH_CHECK; [reflexivity|].
    rewrite launch_dispatched.
    apply dispatched_reads. intros h. apply render_kernel_reads.
  - unfold assign_vertical. post_checks.
    apply (post_guard_launch
             (fun o => heap o.2 !! l = heap s !! l)); [reflexivity|].
    intros i. apply dispatched_lookup. intros h.
    apply assign_kernel_writes. assumption.
  - vm_compute. discriminate.
Qed.

Lemma only_assign_writes_data_witness :
  heap (assign_vertical Scene.kernels Scene.data Scene.child Scene.indices
          Scene.values Scene.offset Scene.invradius Scene.start).2
    !! storage Scene.child
  = heap Scene.start !! storage Scene.child.
Proof.
  apply (proj1 (proj2 (proj2 (proj2
           (only_assign_writes_data Scene.exp_neg Scene.decode
              Scene.start))))).
  right. reflexivity.
Defined.




(** ** More on the binding *)

(** X4.  [query_vertical_backward] raises before anything is computed exactly
    when one of its five tensors is not a CUDA tensor or not contiguous, or
    [indices] is not of rank 2 or not floating-point.  Otherwise it launches
    its kernel once, with the device of [grad_output] as the current device,
    and the caller finds its own current device again. *)
Theorem query_vertical_backward_validation (K : Kernels)
    (child indices grad_output offset invradius : Tensor) (s : State) :
  (raises_before_dispatch
     (query_vertical_backward K child indices grad_output offset invradius) s
   <-> Exists not_ready [child; indices; grad_output; offset; invradius]
       \/ dim indices <> 2%Z \/ is_floating_point indices = false)
  /\ (Forall ready [child; indices; grad_output; offset; invradius] ->
      dim indices = 2%Z -> is_floating_point indices = true ->
      exists i, device grad_output = CUDA i
        /\ query_vertical_backward K child indices grad_output offset
             invradius s
           = dispatched i
               (LQueryBackward child indices grad_output offset invradius)
               [child; indices; grad_output; offset; invradius]
               (_query_vertical_backward_cuda K child indices grad_output
                  offset invradius) s
        /\ current_device
             (query_vertical_backward K child indices grad_output offset
                invradius s).2 = current_device s).
Proof.
  split.
  - rewrite query_vertical_backward_raises, !Exists_cons. tauto.
  - intros Hr Hd Hf.
    destruct (query_vertical_backward_accepts K child indices grad_output
                offset invradius s) as (i & Hi & E); auto.
    { unfold ready in Hr. rewrite !Forall_cons in *. tauto. }
    exists i. rewrite E, dispatched_device. auto.
Qed.

Lemma query_vertical_backward_validation_witness :
  exists i, device (on_device 5 Scene.grad_output) = CUDA i
    /\ query_vertical_backward Scene.kernels Scene.child Scene.indices
         (on_device 5 Scene.grad_output) Scene.offset Scene.invradius
         Scene.start
       = dispatched i
           (LQueryBackward Scene.child Scene.indices
              (on_device 5 Scene.grad_output) Scene.offset Scene.invradius)
           [Scene.child; Scene.indices; on_device 5 Scene.grad_output;
            Scene.offset; Scene.invradius]
           (_query_vertical_backward_cuda Scene.kernels Scene.child
              Scene.indices (on_device 5 Scene.grad_output) Scene.offset
              Scene.invradius) Scene.start
    /\ current_device
         (query_vertical_backward Scene.kernels Scene.child Scene.indices
            (on_device 5 Scene.grad_output) Scene.offset Scene.invradius
            Scene.start).2 = current_device Scene.start.
Proof.
  apply (proj2 (query_vertical_backward_validation Scene.kernels
                  Scene.child Scene.indices
                  (on_device 5 Scene.grad_output) Scene.offset
                  Scene.invradius Scene.start)).
  - repeat constructor.
  - reflexivity.
  - reflexivity.
Defined.

(** X5.  On an input that passes its checks, [assign_vertical] launches its
    kernel exactly once, on the device of [data], with its six tensors in the
    order it received them; it returns or raises as the kernel does, and the
    caller's current device is unchanged. *)
Theorem assign_vertical_dispatch (K : Kernels)
    (data child indices values offset invradius : Tensor) (s : State) :
  Forall ready [data; child; indices; values; offset; invradius] ->
  dim indices = 2%Z -> dim values = 2%Z ->
  is_floating_point indices = true -> is_floating_point values = true ->
  exists i, device data = CUDA i
    /\ (assign_vertical K data child indices values offset invradius s).1
       = (_assign_vertical_cuda K data child indices values offset invradius
            i (reach [data; child; indices; values; offset; invradius]
                 (heap s))).1
    /\ launches
         (assign_vertical K data child indices values offset invradius s).2
       = launches s
         ++ [(i, LAssign data child indices values offset invradius)]
    /\ current_device
         (assign_vertical K data child indices values offset invradius s).2
       = current_device s.
Proof.
  intros Hr Hd Hd' Hf Hf'.
  destruct (assign_vertical_accepts K data child indices values offset
              invradius s Hr Hd Hd' Hf Hf') as (i & Hi & E).
  exists i. rewrite E, dispatched_launches, dispatched_device.
  repeat split; auto.
  unfold dispatched.
  destruct (_assign_vertical_cuda K data child indices values offset
              invradius i _); reflexivity.
Qed.

Lemma assign_vertical_dispatch_witness :
  exists i, device Scene.data = CUDA i
    /\ (assign_vertical Scene.kernels Scene.data Scene.child Scene.indices
          Scene.values Scene.offset Scene.invradius Scene.start).1
       = (_assign_vertical_cuda Scene.kernels Scene.data Scene.child
            Scene.indices Scene.values Scene.offset Scene.invradius i
            (reach [Scene.data; Scene.child; Scene.indices; Scene.values;
                    Scene.offset; Scene.invradius] (heap Scene.start))).1
    /\ launches
         (assign_vertical Scene.kernels Scene.data Scene.child Scene.indices
            Scene.values Scene.offset Scene.invradius Scene.start).2
       = launches Scene.start
         ++ [(i, LAssign Scene.data Scene.child Scene.indices Scene.values
                   Scene.offset Scene.invradius)]
    /\ current_device
         (assign_vertical Scene.kernels Scene.data Scene.child Scene.indices
            Scene.values Scene.offset Scene.invradius Scene.start).2
       = current_device Scene.start.
Proof.
  apply (assign_vertical_dispatch Scene.kernels Scene.data Scene.child
           Scene.indices Scene.values Scene.offset Scene.invradius
           Scene.start).
  - repeat constructor.
  - reflexivity.
  - reflexivity.
  - reflexivity.
  - reflexivity.
Defined.

(** X6.  [volume_render] raises before anything is computed exactly when one
    of its seven tensors is not a CUDA tensor or not contiguous, or [data]
    has no dimension at all, or the last dimension of [data] is below 4. *)
Theorem volume_render_validation (K : Kernels)
    (data child origins dirs vdirs offset invradius : Tensor)
    (step_size stop_thresh background_brightness : Q) (s : State) :
  raises_before_dispatch
    (volume_render K data child origins dirs vdirs offset invradius
       step_size stop_thresh background_brightness) s
  <-> Exists not_ready [data; child; origins; dirs; vdirs; offset; invradius]
      \/ sizes data = []
      \/ exists k, last (sizes data) = Some k /\ (k < 4)%Z.
Proof.
  rewrite volume_render_raises. split.
  - intros [H|H]; [left; exact H|right].
    destruct (sizes data) as [|a l] using rev_ind; [left; reflexivity|].
    right. exists a. rewrite last_snoc in *. split; [reflexivity|].
    apply H. reflexivity.
  - intros [H|[H|(k & Hk & Hlt)]]; [left; exact H|right..].
    + rewrite H. discriminate.
    + intros k' E. rewrite Hk in E. injection E as <-. exact Hlt.
Qed.

(** X7.  No operation changes the caller's current CUDA device, whatever the
    input and whether the call returns, fails its checks or fails in the
    kernel. *)
Theorem current_device_preserved (K : Kernels) (s : State) :
  (forall data child indices offset invradius,
      current_device
        (query_vertical K data child indices offset invradius s).2
      = current_device s)
  /\ (forall child indices grad_output offset invradius,
      current_device
        (query_vertical_backward K child indices grad_output offset
           invradius s).2 = current_device s)
  /\ (forall data child indices values offset invradius,
      current_device
        (assign_vertical K data child indices values offset invradius s).2
      = current_device s)
  /\ (forall data child origins dirs vdirs offset invradius st th bg,
      current_device
        (volume_render K data child origins dirs vdirs offset invradius
           st th bg s).2 = current_device s).
Proof.
  repeat apply conj; intros.
  - unfold query_vertical. post_checks.
    apply post_guard_launch; [reflexivity|]. intros i.
    apply dispatched_device.
  - unfold query_vertical_backward. post_checks.
    apply post_guard_launch; [reflexivity|]. intros i.
    apply dispatched_device.
  - unfold assign_vertical. post_checks.
    apply post_guard_launch; [reflexivity|]. intros i.
    apply dispatched_device.
  - unfold volume_render. post_checks.
    apply post_size_last; [reflexivity|]. intros k.
    apply post_TORCH_CHECK; [reflexivity|].
    rewrite launch_dispatched. apply dispatched_device.
Qed.

Lemma failed_or_launched_raise {A} (call : Launch) (args : list Tensor)
    (k : Kernel A) (s : State) (msg : string) :
  failed_or_launched call args k s (Raise msg, s).
Proof. left. eauto. Qed.

Lemma failed_or_launched_dispatched {A} i call args (k : Kernel A) s :
  failed_or_launched call args k s (dispatched i call args k s).
Proof. right. exists i. split; [reflexivity|apply dispatched_launches]. Qed.

Ltac one_launch :=
  repeat first
    [ apply post_CHECK_INPUT; [apply failed_or_launched_raise|]
    | apply post_TORCH_CHECK; [apply failed_or_launched_raise|] ].

(** X8.  Every call either fails before anything happened or is exactly one
    launch: of the operation's own kernel among the four of [K], applied to
    the tensors and numbers of the call, unchanged and in the order of the
    kernel's declaration; result and memory are what that kernel returns,
    and the launch log has one more entry. *)
Theorem one_launch_per_call (K : Kernels) (s : State) :
  (forall data child indices offset invradius,
      failed_or_launched (LQuery data child indices offset invradius)
        [data; child; indices; offset; invradius]
        (_query_vertical_cuda K data child indices offset invradius) s
        (query_vertical K data child indices offset invradius s))
  /\ (forall child indices grad_output offset invradius,
      failed_or_launched
        (LQueryBackward child indices grad_output offset invradius)
        [child; indices; grad_output; offset; invradius]
        (_query_vertical_backward_cuda K child indices grad_output offset
           invradius) s
        (query_vertical_backward K child indices grad_output offset
           invradius s))
  /\ (forall data child indices values offset invradius,
      failed_or_launched
        (LAssign data child indices values offset invradius)
        [data; child; indices; values; offset; invradius]
        (_assign_vertical_cuda K data child indices values offset
           invradius) s
        (assign_vertical K data child indices values offset invradius s))
  /\ (forall data child origins dirs vdirs offset invradius st th bg,
      failed_or_launched
        (LRender data child origins dirs vdirs offset invradius st th bg)
        [data; child; origins; dirs; vdirs; offset; invradius]
        (_volume_render_cuda K data child origins dirs vdirs offset
           invradius st th bg) s
        (volume_render K data child origins dirs vdirs offset invradius
           st th bg s)).
Proof.
  repeat apply conj; intros.
  - unfold query_vertical. one_launch.
    apply post_guard_launch; [apply failed_or_launched_raise|].
    intros i. apply failed_or_launched_dispatched.
  - unfold query_vertical_backward. one_launch.
    apply post_guard_launch; [apply failed_or_launched_raise|].
    intros i. apply failed_or_launched_dispatched.
  - unfold assign_vertical. one_launch.
    apply post_guard_launch; [apply failed_or_launched_raise|].
    intros i. apply failed_or_launched_dispatched.
  - unfold volume_render. one_launch.
    apply post_size_last; [apply failed_or_launched_raise|]. intros k.
    apply post_TORCH_CHECK; [apply failed_or_launched_raise|].
    rewrite launch_dispatched. apply failed_or_launched_dispatched.
Qed.

Lemma early_same_CHECK_INPUT {A} name x (m : M A) s1 s2 :
  early_same m s1 s2 -> early_same (CHECK_INPUT name x ;; m) s1 s2.
Proof.
  unfold early_same. intros H msg. rewrite !bind_CHECK_INPUT.
  destruct (is_cuda x), (is_contiguous x); auto; intros E;
    injection E as <-; reflexivity.
Qed.

Lemma early_same_TORCH_CHECK {A} c text (m : M A) s1 s2 :
  early_same m s1 s2 -> early_same (TORCH_CHECK c text ;; m) s1 s2.
Proof.
  unfold early_same. intros H msg. rewrite !bind_TORCH_CHECK.
  destruct c; auto. intros E. injection E as <-. reflexivity.
Qed.

Lemma early_same_guard_launch {A} x call args (k : Kernel A) s1 s2 :
  early_same (OptionalCUDAGuard (device_of x) (launch call args k)) s1 s2.
Proof.
  unfold early_same, device_of. intros msg.
  destruct (device x) as [|i].
  - intros E. injection E as <-. reflexivity.
  - rewrite guard_launch. intros E.
    exfalso. exact (dispatched_moves _ _ _ _ _ _ E).
Qed.

Lemma early_same_launch {A} call args (k : Kernel A) s1 s2 :
  early_same (launch call args k) s1 s2.
Proof.
  intros msg. rewrite launch_dispatched. intros E.
  exfalso. exact (dispatched_moves _ _ _ _ _ _ E).
Qed.

Lemma early_same_size_last {A} x (f : Z -> M A) s1 s2 :
  (forall k, early_same (f k) s1 s2) ->
  early_same (k ← size x (-1); f k) s1 s2.
Proof.
  unfold early_same. intros H msg. rewrite !bind_size_last.
  destruct (last (sizes x)); auto. intros E. injection E as <-. reflexivity.
Qed.

(** The checks look at the tensors' metadata only: a call that fails
    early in one state (memory contents, current device, launch log) fails
    early with the same message in every other state. *)
Theorem validation_ignores_state (K : Kernels) (s1 s2 : State) :
  (forall data child indices offset invradius,
      early_same (query_vertical K data child indices offset invradius)
        s1 s2)
  /\ (forall child indices grad_output offset invradius,
      early_same
        (query_vertical_backward K child indices grad_output offset
           invradius) s1 s2)
  /\ (forall data child indices values offset invradius,
      early_same
        (assign_vertical K data child indices values offset invradius)
        s1 s2)
  /\ (forall data child origins dirs vdirs offset invradius st th bg,
      early_same
        (volume_render K data child origins dirs vdirs offset invradius
           st th bg) s1 s2).
Proof.
  repeat apply conj; intros.
  - unfold query_vertical.
    repeat first [ apply early_same_CHECK_INPUT
                 | apply early_same_TORCH_CHECK ].
    apply early_same_guard_launch.
  - unfold query_vertical_backward.
    repeat first [ apply early_same_CHECK_INPUT
                 | apply early_same_TORCH_CHECK ].
    apply early_same_guard_launch.
  - unfold assign_vertical.
    repeat first [ apply early_same_CHECK_INPUT
                 | apply early_same_TORCH_CHECK ].
    apply early_same_guard_launch.
  - unfold volume_render.
    repeat first [ apply early_same_CHECK_INPUT
                 | apply early_same_TORCH_CHECK ].
    apply early_same_size_last. intros k.
    apply early_same_TORCH_CHECK. apply early_same_launch.
Qed.

(** What an early failure of a sequence of checks tells. *)
Lemma raise_CHECK_INPUT {A} name x (m : M A) s msg :
  (CHECK_INPUT name x ;; m) s = (Raise msg, s) ->
  (is_cuda x = false /\ msg = name +:+ " must be a CUDA tensor")
  \/ (is_cuda x = true /\ is_contiguous x = false
      /\ msg = name +:+ " must be contiguous")
  \/ (ready x /\ m s = (Raise msg, s)).
Proof.
  rewrite bind_CHECK_INPUT. unfold ready.
  destruct (is_cuda x), (is_contiguous x); intros E; auto;
    injection E as <-; auto.
Qed.

Lemma raise_TORCH_CHECK {A} c text (m : M A) s msg :
  (TORCH_CHECK c text ;; m) s = (Raise msg, s) ->
  (c = false /\ msg = text) \/ (c = true /\ m s = (Raise msg, s)).
Proof.
  rewrite bind_TORCH_CHECK. destruct c; intros E; auto.
  injection E as <-. auto.
Qed.

Lemma raise_guard_launch {A} x call args (k : Kernel A) s msg :
  OptionalCUDAGuard (device_of x) (launch call args k) s = (Raise msg, s) ->
  is_cuda x = false.
Proof.
  intros E. apply (raises_guard_launch x call args k s). exists msg. exact E.
Qed.

Lemma raise_size_last {A} x (f : Z -> M A) s msg :
  (k ← size x (-1); f k) s = (Raise msg, s) ->
  (last (sizes x) = None /\ msg = "IndexError: dimension out of range")
  \/ exists k, last (sizes x) = Some k /\ f k s = (Raise msg, s).
Proof.
  rewrite bind_size_last. destruct (last (sizes x)) as [k|]; intros E.
  - right. eauto.
  - left. injection E as <-. auto.
Qed.

(** Taking an early failure with a known message apart, check by check. *)
Ltac blame H :=
  repeat
    (first
       [ apply raise_CHECK_INPUT in H
           as [(? & Em) | [(? & ? & Em) | (? & H)]];
         [ try (cbv in Em; discriminate Em)
         | try (cbv in Em; discriminate Em)
         | ]
       | apply raise_TORCH_CHECK in H as [(? & Em) | (? & H)];
         [ try (cbv in Em; discriminate Em) | ] ]).

Ltac first_defect :=
  unfold ready in *; simpl;
  rewrite ?Forall_cons, ?Forall_nil; intuition congruence.

Ltac blamed_by_position Hj :=
  repeat match type of Hj with
         | (_ :: _) !! ?j = Some _ =>
             destruct j; simpl in Hj; [injection Hj as <- <-|]
         | [] !! _ = Some _ => discriminate Hj
         end.

Ltac pass_prefix :=
  repeat (rewrite pass_CHECK_INPUT by (unfold ready in *; tauto));
  rewrite bind_CHECK_INPUT;
  repeat match goal with
         | H : is_cuda _ = _ |- _ => rewrite H
         | H : is_contiguous _ = _ |- _ => rewrite H
         end;
  reflexivity.

Ltac unready H :=
  simpl in H; unfold ready in H; rewrite ?Forall_cons in H;
  repeat match type of H with
         | _ /\ _ => let H' := fresh in destruct H as [H' H]
         end;
  repeat match goal with
         | H' : _ /\ _ |- _ => destruct H'
         end.

Lemma query_vertical_blames (K : Kernels)
    (data child indices offset invradius : Tensor) (s : State) :
  blames (query_vertical K data child indices offset invradius) s
    [("data", data); ("child", child); ("indices", indices);
     ("offset", offset); ("invradius", invradius)].
Proof.
  intros j n x Hj. blamed_by_position Hj.
  all: split; split;
    [ intros H; unfold query_vertical in H; blame H;
      [ first_defect | apply raise_guard_launch in H; first_defect ]
    | intros H; unfold query_vertical; unready H; pass_prefix
    | intros H; unfold query_vertical in H; blame H;
      [ first_defect | apply raise_guard_launch in H; first_defect ]
    | intros H; unfold query_vertical; unready H; pass_prefix ].
Qed.

Lemma query_vertical_backward_blames (K : Kernels)
    (child indices grad_output offset invradius : Tensor) (s : State) :
  blames
    (query_vertical_backward K child indices grad_output offset invradius) s
    [("child", child); ("grad_output", grad_output); ("indices", indices);
     ("offset", offset); ("invradius", invradius)].
Proof.
  intros j n x Hj. blamed_by_position Hj.
  all: split; split;
    [ intros H; unfold query_vertical_backward in H; blame H;
      [ first_defect | apply raise_guard_launch in H; first_defect ]
    | intros H; unfold query_vertical_backward; unready H; pass_prefix
    | intros H; unfold query_vertical_backward in H; blame H;
      [ first_defect | apply raise_guard_launch in H; first_defect ]
    | intros H; unfold query_vertical_backward; unready H; pass_prefix ].
Qed.

Lemma assign_vertical_blames (K : Kernels)
    (data child indices values offset invradius : Tensor) (s : State) :
  blames (assign_vertical K data child indices values offset invradius) s
    [("data", data); ("child", child); ("indices", indices);
     ("values", values); ("offset", offset); ("invradius", invradius)].
Proof.
  intros j n x Hj. blamed_by_position Hj.
  all: split; split;
    [ intros H; unfold assign_vertical in H; blame H;
      [ first_defect | apply raise_guard_launch in H; first_defect ]
    | intros H; unfold assign_vertical; unready H; pass_prefix
    | intros H; unfold assign_vertical in H; blame H;
      [ first_defect | apply raise_guard_launch in H; first_defect ]
    | intros H; unfold assign_vertical; unready H; pass_prefix ].
Qed.

Ltac render_tail H :=
  exfalso;
  apply raise_size_last in H as [(? & Em) | (? & ? & H)];
  [ cbv in Em; discriminate Em | ];
  apply raise_TORCH_CHECK in H as [(? & Em) | (? & H)];
  [ cbv in Em; discriminate Em | ];
  rewrite launch_dispatched in H;
  exact (dispatched_moves _ _ _ _ _ _ H).

Lemma volume_render_blames (K : Kernels)
    (data child origins dirs vdirs offset invradius : Tensor)
    (step_size stop_thresh background_brightness : Q) (s : State) :
  blames
    (volume_render K data child origins dirs vdirs offset invradius
       step_size stop_thresh background_brightness) s
    [("data", data); ("child", child); ("origins", origins);
     ("dirs", dirs); ("vdirs", vdirs); ("offset", offset);
     ("invradius", invradius)].
Proof.
  intros j n x Hj. blamed_by_position Hj.
  all: split; split;
    [ intros H; unfold volume_render in H; blame H;
      [ first_defect | render_tail H ]
    | intros H; unfold volume_render; unready H; pass_prefix
    | intros H; unfold volume_render in H; blame H;
      [ first_defect | render_tail H ]
    | intros H; unfold volume_render; unready H; pass_prefix ].
Qed.

(** X9.  The messages of [CHECK_INPUT] are accurate in all four operations:
    a call fails before anything happened with ["<name> must be a CUDA
    tensor"] (or ["<name> must be contiguous"]) exactly when [<name>] is the
    first tensor, in the order of the checks, that is not both on the device
    and contiguous, and it is off the device (or on it but not contiguous).
    In [query_vertical_backward] that order is [child], [grad_output],
    [indices], [offset], [invradius]. *)
Theorem check_messages_accurate (K : Kernels) (s : State) :
  (forall data child indices offset invradius,
      blames (query_vertical K data child indices offset invradius) s
        [("data", data); ("child", child); ("indices", indices);
         ("offset", offset); ("invradius", invradius)])
  /\ (forall child indices grad_output offset invradius,
      blames
        (query_vertical_backward K child indices grad_output offset
           invradius) s
        [("child", child); ("grad_output", grad_output);
         ("indices", indices); ("offset", offset);
         ("invradius", invradius)])
  /\ (forall data child indices values offset invradius,
      blames (assign_vertical K data child indices values offset invradius)
        s
        [("data", data); ("child", child); ("indices", indices);
         ("values", values); ("offset", offset); ("invradius", invradius)])
  /\ (forall data child origins dirs vdirs offset invradius st th bg,
      blames
        (volume_render K data child origins dirs vdirs offset invradius
           st th bg) s
        [("data", data); ("child", child); ("origins", origins);
         ("dirs", dirs); ("vdirs", vdirs); ("offset", offset);
         ("invradius", invradius)]).
Proof.
  repeat apply conj; intros.
  - apply query_vertical_blames.
  - apply query_vertical_backward_blames.
  - apply assign_vertical_blames.
  - apply volume_render_blames.
Qed.

Lemma check_messages_accurate_witness :
  query_vertical_backward Scene.kernels Scene.child
    (mkTensor CPU false [3%Z] Int 3)
    (mkTensor (CUDA 0) false [1; 4]%Z Float 8) Scene.offset Scene.invradius
    Scene.start
  = (Raise "grad_output must be contiguous", Scene.start).
Proof.
  apply (proj2 (proj1 (proj2 (check_messages_accurate Scene.kernels
                                 Scene.start))
                  Scene.child (mkTensor CPU false [3%Z] Int 3)
                  (mkTensor (CUDA 0) false [1; 4]%Z Float 8) Scene.offset
                  Scene.invradius 1%nat "grad_output"
                  (mkTensor (CUDA 0) false [1; 4]%Z Float 8) eq_refl)).
  repeat split. repeat constructor.
Defined.

(** X10.  [volume_render] does not validate [step_size], [stop_thresh] or
    [background_brightness]: whether the call fails early is the same for
    all values of the three numbers, zero and negative ones included. *)
Theorem volume_render_numbers_unchecked (K : Kernels)
    (data child origins dirs vdirs offset invradius : Tensor)
    (st th bg st' th' bg' : Q) (s : State) :
  raises_before_dispatch
    (volume_render K data child origins dirs vdirs offset invradius
       st th bg) s
  <-> raises_before_dispatch
        (volume_render K data child origins dirs vdirs offset invradius
           st' th' bg') s.
Proof. rewrite !volume_render_raises. reflexivity. Qed.

(** X11.  [query_vertical_backward] looks at neither the rank nor the element
    type of [grad_output], and [volume_render] at neither the rank nor the
    element type of [origins], [dirs] and [vdirs], nor at the element type
    of [data]: changing them turns no launch into an early failure and no
    early failure into a launch. *)
Theorem unchecked_shapes (K : Kernels) (s : State) :
  (forall child indices grad_output offset invradius sg tg,
      raises_before_dispatch
        (query_vertical_backward K child indices
           (reshaped sg tg grad_output) offset invradius) s
      <-> raises_before_dispatch
            (query_vertical_backward K child indices grad_output offset
               invradius) s)
  /\ (forall data child origins dirs vdirs offset invradius st th bg
        td so to sd td' sv tv,
      raises_before_dispatch
        (volume_render K (reshaped (sizes data) td data) child
           (reshaped so to origins) (reshaped sd td' dirs)
           (reshaped sv tv vdirs) offset invradius st th bg) s
      <-> raises_before_dispatch
            (volume_render K data child origins dirs vdirs offset invradius
               st th bg) s).
Proof.
  split; intros.
  - rewrite !query_vertical_backward_raises, !Exists_cons,
      !not_ready_reshaped. reflexivity.
  - rewrite !volume_render_raises, !Exists_cons, !not_ready_reshaped.
    reflexivity.
Qed.

(** ** The Python module: how a call reaches a function *)

Lemma NoDup_dropped {A} (l : list A) (k : nat) : NoDup l -> NoDup (drop k l).
Proof. intros H. eapply sublist_NoDup; [exact H|apply sublist_drop]. Qed.

Lemma elem_of_dropped {A} (l : list A) (k : nat) (x : A) :
  x ∈ drop k l -> x ∈ l.
Proof.
  intros H. rewrite <- (take_drop k l). apply elem_of_app. right. exact H.
Qed.

Lemma lookup_zip_map (ns : list string) (ws : list PyVal) :
  NoDup ns -> length ns = length ws ->
  mapM (fun n => (list_to_map (zip ns ws) : gmap string PyVal) !! n) ns
  = Some ws.
Proof.
  intros ND Hlen. apply mapM_Some. apply Forall2_same_length_lookup_2.
  - exact Hlen.
  - intros i n w Hn Hw.
    apply elem_of_list_to_map_1.
    + rewrite fst_zip by lia. exact ND.
    + apply list_elem_of_lookup. exists i.
      apply lookup_zip_with_Some. eauto.
Qed.

Lemma dom_zip_map (ns : list string) (ws : list PyVal) :
  length ns = length ws ->
  dom (list_to_map (zip ns ws) : gmap string PyVal) = list_to_set ns.
Proof.
  intros Hlen. rewrite dom_list_to_map_L, fst_zip by lia. reflexivity.
Qed.

(** Positional arguments followed by the remaining ones by keyword are the
    full list of arguments. *)
Lemma bind_args_mixed (names : list string) (vs : list PyVal) (k : nat) :
  NoDup names -> length vs = length names -> (k <= length vs)%nat ->
  bind_args names (take k vs)
    (list_to_map (zip (drop k names) (drop k vs)))
  = Some vs.
Proof.
  intros ND Hlen Hk. unfold bind_args.
  rewrite length_take, Nat.min_l by exact Hk.
  rewrite decide_False by lia.
  assert (length (drop k names) = length (drop k vs)) as Hl
    by (rewrite !length_drop; lia).
  rewrite lookup_zip_map by (auto using NoDup_dropped).
  rewrite decide_True by (rewrite dom_zip_map by exact Hl; reflexivity).
  rewrite take_drop. reflexivity.
Qed.

Lemma bind_args_positional (names : list string) (vs : list PyVal) :
  length vs = length names -> bind_args names vs ∅ = Some vs.
Proof.
  intros Hlen. unfold bind_args. rewrite decide_False by lia.
  rewrite Hlen, drop_all. simpl. rewrite decide_True by set_solver.
  rewrite app_nil_r. reflexivity.
Qed.

(** A call that is resolved gave each parameter exactly one value. *)
Lemma bind_args_count (names : list string) (pos : list PyVal)
    (kw : gmap string PyVal) (vs : list PyVal) :
  NoDup names -> bind_args names pos kw = Some vs ->
  (length pos + base.size kw = length names)%nat
  /\ dom kw ⊆ list_to_set names.
Proof.
  intros ND. unfold bind_args. case_decide as Hlt; [discriminate|].
  destruct (mapM _ _) as [vals|] eqn:Em; [|discriminate].
  case_decide as Hsub; [|discriminate]. intros _.
  apply mapM_Some in Em.
  assert (dom kw = list_to_set (drop (length pos) names)) as Hdom.
  { apply set_eq. intros n. split; [apply Hsub|].
    rewrite elem_of_list_to_set. intros Hn.
    apply list_elem_of_lookup in Hn as [i Hi].
    destruct (Forall2_lookup_l _ _ _ _ _ Em Hi) as (v & _ & Hv).
    apply elem_of_dom. eauto. }
  split.
  - rewrite <- size_dom, Hdom, size_list_to_set by (apply NoDup_dropped, ND).
    rewrite length_drop. lia.
  - rewrite Hdom. intros n. rewrite !elem_of_list_to_set.
    intros Hn. eapply elem_of_dropped. exact Hn.
Qed.

Lemma svox_module_args_NoDup (K : Kernels) (as_float : PyVal -> option Q)
    (e : Export) :
  e ∈ svox_module K as_float -> NoDup (py_args e).
Proof.
  intros He. unfold svox_module in He.
  repeat (apply elem_of_cons in He as [-> | He]);
    [..|apply elem_of_nil in He; contradiction];
    simpl; apply (bool_decide_unpack _); vm_compute; reflexivity.
Qed.

(** X12.  For every function of the module, passing the first [k] arguments
    by position and the others by keyword is the same call as passing all of
    them by position, whatever [k]. *)
Theorem keywords_or_positions (K : Kernels) (as_float : PyVal -> option Q)
    (e : Export) (vs : list PyVal) (k : nat) (s : State) :
  e ∈ svox_module K as_float ->
  length vs = length (py_args e) -> (k <= length vs)%nat ->
  invoke e (take k vs) (list_to_map (zip (drop k (py_args e)) (drop k vs))) s
  = invoke e vs ∅ s.
Proof.
  intros He Hlen Hk. unfold invoke.
  rewrite bind_args_mixed, bind_args_positional; auto.
  eapply svox_module_args_NoDup. exact He.
Qed.

Lemma keywords_or_positions_witness :
  invoke (mkExport "query_vertical" (Some "Query tree at coords [0, 1)")
            ["data"; "child"; "indices"; "offset"; "invradius"]
            (py_query_vertical Scene.kernels))
    [PyTensor Scene.data; PyTensor Scene.child]
    (list_to_map
       [("indices", PyTensor Scene.indices);
        ("offset", PyTensor Scene.offset);
        ("invradius", PyTensor Scene.invradius)]) Scene.start
  = invoke (mkExport "query_vertical" (Some "Query tree at coords [0, 1)")
              ["data"; "child"; "indices"; "offset"; "invradius"]
              (py_query_vertical Scene.kernels))
      [PyTensor Scene.data; PyTensor Scene.child; PyTensor Scene.indices;
       PyTensor Scene.offset; PyTensor Scene.invradius] ∅ Scene.start.
Proof.
  apply (keywords_or_positions Scene.kernels (fun _ => None)
           (mkExport "query_vertical" (Some "Query tree at coords [0, 1)")
              ["data"; "child"; "indices"; "offset"; "invradius"]
              (py_query_vertical Scene.kernels))
           [PyTensor Scene.data; PyTensor Scene.child;
            PyTensor Scene.indices; PyTensor Scene.offset;
            PyTensor Scene.invradius] 2 Scene.start).
  - repeat constructor.
  - reflexivity.
  - simpl. lia.
Defined.

(** X13.  A call that does not give every parameter exactly one value (too
    few or too many arguments, or a keyword that is no parameter of the
    function) is a [TypeError]: no check of the function has run, no kernel
    was launched and the state is untouched. *)
Theorem wrong_arguments_rejected (K : Kernels) (as_float : PyVal -> option Q)
    (e : Export) (pos : list PyVal) (kw : gmap string PyVal) (s : State) :
  e ∈ svox_module K as_float ->
  (length pos + base.size kw <> length (py_args e))%nat
  \/ (exists n, n ∈ dom kw /\ n ∉ py_args e) ->
  invoke e pos kw s = (Raise TypeError, s).
Proof.
  intros He Hbad. unfold invoke.
  destruct (bind_args (py_args e) pos kw) as [vs|] eqn:Eb; [|reflexivity].
  exfalso.
  destruct (bind_args_count _ _ _ _ (svox_module_args_NoDup _ _ _ He) Eb)
    as [Hcount Hdom].
  destruct Hbad as [Hbad|(n & Hn & Hn')]; [contradiction|].
  apply Hn'. apply Hdom in Hn. apply elem_of_list_to_set in Hn. exact Hn.
Qed.

Lemma wrong_arguments_rejected_witness :
  invoke (mkExport "assign_vertical"
            (Some "Assign tree at given coords [0, 1)")
            ["data"; "child"; "indices"; "values"; "offset"; "invradius"]
            (py_assign_vertical Scene.kernels))
    [PyTensor Scene.data; PyTensor Scene.child; PyTensor Scene.indices;
     PyTensor Scene.values; PyTensor Scene.offset]
    ∅ Scene.start
  = (Raise TypeError, Scene.start).
Proof.
  apply (wrong_arguments_rejected Scene.kernels (fun _ => None)).
  - repeat constructor.
  - left. vm_compute. discriminate.
Defined.

Lemma bind_args_empty (names : list string) (vs vs' : list PyVal) :
  bind_args names vs ∅ = Some vs' -> vs' = vs.
Proof.
  unfold bind_args. case_decide; [discriminate|].
  destruct (drop (length vs) names) as [|n ns].
  - simpl. case_decide; [|discriminate]. intros E. injection E as <-.
    apply app_nil_r.
  - simpl. rewrite lookup_empty. discriminate.
Qed.

Ltac not_a_tensor Hv Hnot :=
  simpl in Hv; injection Hv as ->; simpl;
  repeat match goal with
         | |- context [as_tensor ?a] =>
             destruct (as_tensor a) eqn:?; simpl;
             try congruence; try reflexivity
         end.

Ltac by_position j Hv Hnot :=
  repeat (destruct j as [|j]; [not_a_tensor Hv Hnot|]); simpl; lia.

Lemma py_query_vertical_tensors (K : Kernels) (vs : list PyVal) (j : nat)
    (v : PyVal) :
  vs !! j = Some v -> as_tensor v = None -> (j < 5)%nat ->
  py_query_vertical K vs = None.
Proof.
  intros Hv Hnot Hj.
  destruct vs as [|a1 [|a2 [|a3 [|a4 [|a5 [|a6 vs]]]]]]; try reflexivity.
  by_position j Hv Hnot.
Qed.

Lemma py_query_vertical_backward_tensors (K : Kernels) (vs : list PyVal)
    (j : nat) (v : PyVal) :
  vs !! j = Some v -> as_tensor v = None -> (j < 5)%nat ->
  py_query_vertical_backward K vs = None.
Proof.
  intros Hv Hnot Hj.
  destruct vs as [|a1 [|a2 [|a3 [|a4 [|a5 [|a6 vs]]]]]]; try reflexivity.
  by_position j Hv Hnot.
Qed.

Lemma py_assign_vertical_tensors (K : Kernels) (vs : list PyVal) (j : nat)
    (v : PyVal) :
  vs !! j = Some v -> as_tensor v = None -> (j < 6)%nat ->
  py_assign_vertical K vs = None.
Proof.
  intros Hv Hnot Hj.
  destruct vs as [|a1 [|a2 [|a3 [|a4 [|a5 [|a6 [|a7 vs]]]]]]];
    try reflexivity.
  by_position j Hv Hnot.
Qed.

Lemma py_volume_render_tensors (K : Kernels) (as_float : PyVal -> option Q)
    (vs : list PyVal) (j : nat) (v : PyVal) :
  vs !! j = Some v -> as_tensor v = None -> (j < 7)%nat ->
  py_volume_render K as_float vs = None.
Proof.
  intros Hv Hnot Hj.
  destruct vs
    as [|a1 [|a2 [|a3 [|a4 [|a5 [|a6 [|a7 [|a8 [|a9 [|a10 [|a11 vs]]]]]]]]]]];
    try reflexivity.
  by_position j Hv Hnot.
Qed.

(** X14.  Every parameter except the three numbers of [volume_render] takes
    a tensor object: a call that passes anything else there ([None], a
    number, a string) is a [TypeError] before any check of the function. *)
Theorem tensor_arguments_required (K : Kernels)
    (as_float : PyVal -> option Q) (e : Export) (vs : list PyVal)
    (j : nat) (n : string) (v : PyVal) (s : State) :
  e ∈ svox_module K as_float ->
  py_args e !! j = Some n -> vs !! j = Some v ->
  n ∉ ["step_size"; "stop_thresh"; "background_brightness"] ->
  as_tensor v = None ->
  invoke e vs ∅ s = (Raise TypeError, s).
Proof.
  intros He Hn Hv Hnum Hnot. unfold invoke.
  destruct (bind_args (py_args e) vs ∅) as [vs'|] eqn:Eb; [|reflexivity].
  apply bind_args_empty in Eb as ->.
  simpl.
  assert (py_impl e vs = None) as ->; [|reflexivity].
  unfold svox_module in He.
  repeat (apply elem_of_cons in He as [-> | He]);
    [..|apply elem_of_nil in He; contradiction]; simpl in *.
  - apply (py_query_vertical_tensors K vs j v Hv Hnot).
    apply lookup_lt_Some in Hn. exact Hn.
  - apply (py_query_vertical_backward_tensors K vs j v Hv Hnot).
    apply lookup_lt_Some in Hn. exact Hn.
  - apply (py_assign_vertical_tensors K vs j v Hv Hnot).
    apply lookup_lt_Some in Hn. exact Hn.
  - apply (py_volume_render_tensors K as_float vs j v Hv Hnot).
    do 7 (destruct j as [|j]; [lia|]).
    exfalso. apply Hnum.
    do 3 (destruct j as [|j];
          [injection Hn as <-; repeat constructor|]).
    discriminate Hn.
Qed.

Lemma tensor_arguments_required_witness :
  invoke (mkExport "query_vertical_backward"
            (Some "Backwards pass for query_vertical")
            ["child"; "indices"; "grad_output"; "offset"; "invradius"]
            (py_query_vertical_backward Scene.kernels))
    [PyTensor Scene.child; PyTensor Scene.indices; PyNone;
     PyTensor Scene.offset; PyTensor Scene.invradius] ∅ Scene.start
  = (Raise TypeError, Scene.start).
Proof.
  apply (tensor_arguments_required Scene.kernels (fun _ => None)
           (mkExport "query_vertical_backward"
              (Some "Backwards pass for query_vertical")
              ["child"; "indices"; "grad_output"; "offset"; "invradius"]
              (py_query_vertical_backward Scene.kernels))
           [PyTensor Scene.child; PyTensor Scene.indices; PyNone;
            PyTensor Scene.offset; PyTensor Scene.invradius]
           2 "grad_output" PyNone Scene.start).
  - repeat constructor.
  - reflexivity.
  - reflexivity.
  - intros H. repeat (apply elem_of_cons in H as [H|H]; [discriminate H|]).
    apply elem_of_nil in H. exact H.
  - reflexivity.
Defined.

(** X15.  Each name of the module is bound to the C++ function of the same
    name, and a keyword reaches the parameter it names: calling by keywords,
    in any order, runs the function on the tensors and numbers so named;
    [assign_vertical] hands back [None], the other three a tensor. *)
Theorem keywords_reach_parameters (K : Kernels)
    (as_float : PyVal -> option Q) (s : State) :
  (forall data child indices offset invradius,
      exists e, getattr K as_float "query_vertical" = Some e
        /\ invoke e []
             (list_to_map
                [("invradius", PyTensor invradius);
                 ("offset", PyTensor offset);
                 ("indices", PyTensor indices);
                 ("child", PyTensor child);
                 ("data", PyTensor data)]) s
           = (OutTensor <$> query_vertical K data child indices offset
                              invradius) s)
  /\ (forall child indices grad_output offset invradius,
      exists e, getattr K as_float "query_vertical_backward" = Some e
        /\ invoke e []
             (list_to_map
                [("grad_output", PyTensor grad_output);
                 ("invradius", PyTensor invradius);
                 ("offset", PyTensor offset);
                 ("indices", PyTensor indices);
                 ("child", PyTensor child)]) s
           = (OutTensor <$> query_vertical_backward K child indices
                              grad_output offset invradius) s)
  /\ (forall data child indices values offset invradius,
      exists e, getattr K as_float "assign_vertical" = Some e
        /\ invoke e []
             (list_to_map
                [("values", PyTensor values);
                 ("invradius", PyTensor invradius);
                 ("offset", PyTensor offset);
                 ("indices", PyTensor indices);
                 ("child", PyTensor child);
                 ("data", PyTensor data)]) s
           = ((fun _ => OutNone) <$> assign_vertical K data child indices
                                       values offset invradius) s)
  /\ (forall data child origins dirs vdirs offset invradius v8 v9 v10
        st th bg,
      as_float v8 = Some st -> as_float v9 = Some th ->
      as_float v10 = Some bg ->
      exists e, getattr K as_float "volume_render" = Some e
        /\ invoke e []
             (list_to_map
                [("background_brightness", v10);
                 ("stop_thresh", v9);
                 ("step_size", v8);
                 ("vdirs", PyTensor vdirs);
                 ("dirs", PyTensor dirs);
                 ("origins", PyTensor origins);
                 ("invradius", PyTensor invradius);
                 ("offset", PyTensor offset);
                 ("child", PyTensor child);
                 ("data", PyTensor data)]) s
           = (OutTensor <$> volume_render K data child origins dirs vdirs
                              offset invradius st th bg) s).
Proof.
  repeat apply conj; intros.
  - eexists. split; [reflexivity|]. unfold invoke.
    match goal with
    | |- context [bind_args ?n ?p ?k] =>
        assert (bind_args n p k
                = Some [PyTensor data; PyTensor child; PyTensor indices;
                        PyTensor offset; PyTensor invradius]) as ->
          by (vm_compute; reflexivity)
    end.
    reflexivity.
  - eexists. split; [reflexivity|]. unfold invoke.
    match goal with
    | |- context [bind_args ?n ?p ?k] =>
        assert (bind_args n p k
                = Some [PyTensor child; PyTensor indices;
                        PyTensor grad_output; PyTensor offset;
                        PyTensor invradius]) as ->
          by (vm_compute; reflexivity)
    end.
    reflexivity.
  - eexists. split; [reflexivity|]. unfold invoke.
    match goal with
    | |- context [bind_args ?n ?p ?k] =>
        assert (bind_args n p k
                = Some [PyTensor data; PyTensor child; PyTensor indices;
                        PyTensor values; PyTensor offset;
                        PyTensor invradius]) as ->
          by (vm_compute; reflexivity)
    end.
    reflexivity.
  - eexists. split; [reflexivity|]. unfold invoke.
    match goal with
    | |- context [bind_args ?n ?p ?k] =>
        assert (bind_args n p k
                = Some [PyTensor data; PyTensor child; PyTensor origins;
                        PyTensor dirs; PyTensor vdirs; PyTensor offset;
                        PyTensor invradius; v8; v9; v10]) as ->
          by (vm_compute; reflexivity)
    end.
    simpl. rewrite H, H0, H1. reflexivity.
Qed.

Lemma keywords_reach_parameters_witness :
  exists e, getattr Scene.kernels (fun _ => None) "assign_vertical" = Some e
    /\ invoke e []
         (list_to_map
            [("values", PyTensor Scene.values);
             ("invradius", PyTensor Scene.invradius);
             ("offset", PyTensor Scene.offset);
             ("indices", PyTensor Scene.indices);
             ("child", PyTensor Scene.child);
             ("data", PyTensor Scene.data)]) Scene.start
       = ((fun _ => OutNone) <$> assign_vertical Scene.kernels Scene.data
                                   Scene.child Scene.indices Scene.values
                                   Scene.offset Scene.invradius)
           Scene.start.
Proof.
  apply (proj1 (proj2 (proj2 (keywords_reach_parameters Scene.kernels
                                (fun _ => None) Scene.start)))).
Defined.
